(** * mastodon_bot_safe.py: the decision engine of the anti-spam Mastodon bot

    A shallow embedding of [src/mastodon_bot_safe.py].  Python [int]s are
    [Z]; [str]s are [string]s holding the UTF-8 bytes of the text; lists are
    [list]s; the [state] dictionary is the record [State].  Everything the
    program reads from outside (clocks, the random generator, the directory
    listing, the answers of the Mastodon server) comes from the [World],
    one tape per source, and everything it does to the outside (sleeps,
    remote calls, the state file) is written back to the [World]. *)

From Stdlib Require Import ZArith List String Ascii Bool Lia QArith Lqa Permutation.
From Stdlib Require Import DecimalString.
Import ListNotations.

Local Open Scope string_scope.
Local Open Scope list_scope.
Local Open Scope Z_scope.

Set Implicit Arguments.

(** ** Python values used by the program *)

(** [l[-n:]] on a list. *)
Definition last_n {A : Type} (n : nat) (l : list A) : list A :=
  skipn (List.length l - n) l.

(** [str(i)] for an [int]. *)
Definition str_of_int (z : Z) : string := NilZero.string_of_int (Z.to_int z).

(** [f"{n:02d}"] and [f"{n:04d}"] for the non-negative fields of a date. *)
Definition pad2 (n : Z) : string :=
  if n <? 10 then String.append "0" (str_of_int n) else str_of_int n.

Definition pad4 (n : Z) : string :=
  if n <? 10 then String.append "000" (str_of_int n)
  else if n <? 100 then String.append "00" (str_of_int n)
  else if n <? 1000 then String.append "0" (str_of_int n)
  else str_of_int n.

(** An identifier as the Mastodon client hands it over: [None], an [int]
    or a [str]. *)
Inductive pyid : Type :=
| IdNone
| IdInt (z : Z)
| IdStr (s : string).

(** [str(x)] *)
Definition str (x : pyid) : string :=
  match x with
  | IdNone => "None"
  | IdInt z => str_of_int z
  | IdStr s => s
  end.

(** [bool(x)]: [None], [0] and [""] are false. *)
Definition truthy (x : pyid) : bool :=
  match x with
  | IdNone => false
  | IdInt z => negb (z =? 0)
  | IdStr s => negb (s =? "")%string
  end.

(** [a == b] on identifiers: an [int] never equals a [str]. *)
Definition pyid_eqb (a b : pyid) : bool :=
  match a, b with
  | IdNone, IdNone => true
  | IdInt x, IdInt y => x =? y
  | IdStr x, IdStr y => (x =? y)%string
  | _, _ => false
  end.

(** [bool(s)] for a [str]. *)
Definition nonempty (s : string) : bool := negb (s =? "")%string.

(** [x in l] for a list (or the set built from it) of strings. *)
Definition mem (x : string) (l : list string) : bool :=
  existsb (String.eqb x) l.

(** *** [str.lower], [in] and [str.strip] on UTF-8 text *)

(** [str.lower()]: only the letters A-Z matter to the ASCII needles that
    [_needs_backoff] looks for; bytes of multi-byte characters are kept. *)
Definition lower_ascii (c : ascii) : ascii :=
  let n := nat_of_ascii c in
  if (Nat.leb 65 n && Nat.leb n 90)%bool then ascii_of_nat (n + 32) else c.

Fixpoint lower (s : string) : string :=
  match s with
  | EmptyString => EmptyString
  | String c s' => String (lower_ascii c) (lower s')
  end.

(** [needle in s] *)
Fixpoint contains (needle s : string) : bool :=
  (String.prefix needle s
   || match s with
      | EmptyString => false
      | String _ s' => contains needle s'
      end)%bool.

Definition bytes (l : list nat) : string :=
  string_of_list_ascii (map ascii_of_nat l).

(** The characters for which [str.isspace] holds, in UTF-8: U+0009-000D,
    U+001C-0020, U+0085, U+00A0, U+1680, U+2000-200A, U+2028, U+2029,
    U+202F, U+205F, U+3000. *)
Definition whitespace : list string :=
  map bytes
    [ [9]; [10]; [11]; [12]; [13]; [28]; [29]; [30]; [31]; [32];
      [194; 133]; [194; 160]; [225; 154; 128];
      [226; 128; 128]; [226; 128; 129]; [226; 128; 130]; [226; 128; 131];
      [226; 128; 132]; [226; 128; 133]; [226; 128; 134]; [226; 128; 135];
      [226; 128; 136]; [226; 128; 137]; [226; 128; 138];
      [226; 128; 168]; [226; 128; 169]; [226; 128; 175];
      [226; 129; 159]; [227; 128; 128] ]%nat.

Definition drop (n : nat) (s : string) : string :=
  String.substring n (String.length s - n) s.

Definition rev_string (s : string) : string :=
  string_of_list_ascii (rev (list_ascii_of_string s)).

(** Drops leading members of [ws]; [fuel] bounds the number of rounds. *)
Fixpoint lstrip_with (ws : list string) (fuel : nat) (s : string) : string :=
  match fuel with
  | O => s
  | S fuel' =>
      match find (fun w => String.prefix w s) ws with
      | Some w => lstrip_with ws fuel' (drop (String.length w) s)
      | None => s
      end
  end.

Definition lstrip (s : string) : string :=
  lstrip_with whitespace (String.length s) s.

Definition rstrip (s : string) : string :=
  rev_string
    (lstrip_with (map rev_string whitespace) (String.length s) (rev_string s)).

(** [s.strip()] *)
Definition strip (s : string) : string := rstrip (lstrip s).

(** ** Configuration constants *)

Definition IMAGE_RECENCY_DAYS : Z := 14.
Definition NO_POST_START_HOUR : Z := 23.
Definition NO_POST_END_HOUR : Z := 7.
Definition MAX_POSTS_PER_DAY : Z := 4.
Definition MAX_ENGAGEMENTS_PER_DAY : Z := 10.
Definition MAX_POSTS_PER_HOUR : Z := 2.
Definition MAX_ENGAGEMENTS_PER_HOUR : Z := 3.
Definition DELAY_POST_MIN_S : Z := 8.
Definition DELAY_POST_MAX_S : Z := 28.
Definition DELAY_ENGAGE_MIN_S : Z := 12.
Definition DELAY_ENGAGE_MAX_S : Z := 45.
Definition MAX_IMG_GMGN_PER_DAY : Z := 2.
Definition MAX_SHORT_LINK_PER_DAY : Z := 2.
Definition MAX_GMGN_LONG_PER_DAY : Z := 1.

Definition SITE_URL : string := "https://louphi1987.github.io/Site_de_Louphi/".
Definition OPENSEA_URL : string := "https://opensea.io/collection/loufis-art".

Definition GM_SHORT : list string :=
  [ "GM ☀️"; "GM ✨"; "GM 🌞"; "GM 🌿"; "GM 👋" ].
Definition GN_SHORT_BASE : list string :=
  [ "GN"; "Gn"; "gn"; "Good night"; "Night" ].
Definition RANDOM_GN_EMOJIS : list string :=
  [ "🌙"; "✨"; "⭐"; "💤"; "🌌"; "🫶"; "💫"; "😴"; "🌠" ].
Definition GM_LONG : list string :=
  [ "GM 🌱 Wishing you a day full of creativity and light.";
    "GM ✨ New day, new brushstrokes.";
    "GM 🌊 Let's dive into imagination today." ].
Definition GN_LONG : list string :=
  [ "Good night 🌙💫 May your dreams be as colorful as art.";
    "GN 🌌 See you in tomorrow’s stories.";
    "Resting the canvas for tomorrow’s colors. GN ✨" ].
Definition LINK_POOLS : list string := [ SITE_URL; OPENSEA_URL ].
Definition COMMENT_SHORT : list string :=
  [ "Thanks for the mention!"; "Appreciate it 🙏";
    "Thanks for looping me in ✨"; "Thanks!" ].
Definition COMMENT_EMOJIS : list string :=
  [ "🔥"; "👍"; "👏"; "😍"; "✨"; "🫶"; "🎉"; "💯"; "🤝"; "⚡"; "🌟" ].

(** ** Time *)

(** The fields of [now_local] that the program reads: the calendar date
    and the hour, in the configured time zone. *)
Record datetime : Type := DateTime {
  year : Z;
  month : Z;
  day : Z;
  hour : Z
}.

(** [now_local.date().isoformat()] *)
Definition date_isoformat (now_local : datetime) : string :=
  (pad4 (year now_local) ++ "-" ++ pad2 (month now_local) ++ "-"
   ++ pad2 (day now_local))%string.

(** An instant of the UTC clock, in microseconds since the epoch (the
    resolution of [datetime]). *)
Definition instant : Type := Z.

(** [dt.timedelta(days=d)] *)
Definition timedelta_days (d : Z) : Z := d * 86400 * 1000000.

(** ** The persisted state *)

(** The keys of the [pertype] dictionary, which are also the names of
    the posting actions. *)
Inductive Action : Type :=
| post_img_gmgn_short
| post_gmgn_long
| post_short_link
| reblog.

Definition Action_eqb (a b : Action) : bool :=
  match a, b with
  | post_img_gmgn_short, post_img_gmgn_short
  | post_gmgn_long, post_gmgn_long
  | post_short_link, post_short_link
  | reblog, reblog => true
  | _, _ => false
  end.

(** The [pertype] dictionary: one count per key of [_pertype_zero]. *)
Record PerType : Type := mkPerType {
  n_img_gmgn_short : Z;
  n_gmgn_long : Z;
  n_short_link : Z;
  n_reblog : Z
}.

(** [pertype[a]] *)
Definition pertype_get (pt : PerType) (a : Action) : Z :=
  match a with
  | post_img_gmgn_short => n_img_gmgn_short pt
  | post_gmgn_long => n_gmgn_long pt
  | post_short_link => n_short_link pt
  | reblog => n_reblog pt
  end.

(** [pertype[a] = v] *)
Definition pertype_set (pt : PerType) (a : Action) (v : Z) : PerType :=
  match a with
  | post_img_gmgn_short =>
      mkPerType v (n_gmgn_long pt) (n_short_link pt) (n_reblog pt)
  | post_gmgn_long =>
      mkPerType (n_img_gmgn_short pt) v (n_short_link pt) (n_reblog pt)
  | post_short_link =>
      mkPerType (n_img_gmgn_short pt) (n_gmgn_long pt) v (n_reblog pt)
  | reblog =>
      mkPerType (n_img_gmgn_short pt) (n_gmgn_long pt) (n_short_link pt) v
  end.

Definition _pertype_zero : PerType := mkPerType 0 0 0 0.

Record DailyCounters : Type := mkDaily {
  d_date : string;
  d_posts : Z;
  d_engagements : Z
}.

Record HourlyCounters : Type := mkHourly {
  h_key : string;
  h_posts : Z;
  h_engagements : Z
}.

(** One record of [state["history"]].  [ts] is [None] when the key is
    missing, empty or not an ISO date (the loops skip such records);
    [media] is [None] when the key is missing. *)
Record HistoryEntry : Type := mkEntry {
  text : string;
  ts : option instant;
  media : option string
}.

Record State : Type := mkState {
  history : list HistoryEntry;
  daily : DailyCounters;
  hourly : HourlyCounters;
  processed_notifications : list string;
  recent_reblogs : list string;
  pertype : PerType
}.

(** The state [load_state] returns when there is no usable state file. *)
Definition fresh_state : State :=
  mkState [] (mkDaily "" 0 0) (mkHourly "" 0 0) [] [] _pertype_zero.

Definition set_history (st : State) (h : list HistoryEntry) : State :=
  mkState h (daily st) (hourly st) (processed_notifications st)
    (recent_reblogs st) (pertype st).

Definition set_daily (st : State) (d : DailyCounters) : State :=
  mkState (history st) d (hourly st) (processed_notifications st)
    (recent_reblogs st) (pertype st).

Definition set_hourly (st : State) (h : HourlyCounters) : State :=
  mkState (history st) (daily st) h (processed_notifications st)
    (recent_reblogs st) (pertype st).

Definition set_processed_notifications (st : State) (l : list string) : State :=
  mkState (history st) (daily st) (hourly st) l (recent_reblogs st)
    (pertype st).

Definition set_recent_reblogs (st : State) (l : list string) : State :=
  mkState (history st) (daily st) (hourly st) (processed_notifications st) l
    (pertype st).

Definition set_pertype (st : State) (pt : PerType) : State :=
  mkState (history st) (daily st) (hourly st) (processed_notifications st)
    (recent_reblogs st) pt.

Definition reset_daily_if_needed (state : State) (now_local : datetime) : State :=
  let today := date_isoformat now_local in
  if negb (d_date (daily state) =? today)%string then
    let state := set_daily state (mkDaily today 0 0) in
    let state := set_recent_reblogs state (last_n 200 (recent_reblogs state)) in
    set_pertype state _pertype_zero
  else state.

Definition hour_key (now_local : datetime) : string :=
  (date_isoformat now_local ++ "_" ++ pad2 (hour now_local))%string.

Definition reset_hourly_if_needed (state : State) (now_local : datetime) : State :=
  let key := hour_key now_local in
  if negb (h_key (hourly state) =? key)%string then
    set_hourly state (mkHourly key 0 0)
  else state.

(** [remember_post], given the reading [now] of the UTC clock it takes. *)
Definition remember_post_at (now : instant) (state : State) (text : string)
    (media : option string) : State :=
  let rec :=
    mkEntry text (Some now)
      (match media with
       | Some m => if nonempty m then Some m else None
       | None => None
       end) in
  let state := set_history state (history state ++ [rec]) in
  set_history state (last_n 400 (history state)).

(** The body of [recently_used_text] once the clock has been read. *)
Definition recently_used_text_at (now : instant) (state : State) (text0 : string)
    (days : Z) : bool :=
  let cutoff := now - timedelta_days days in
  existsb
    (fun item =>
       match ts item with
       | None => false
       | Some when => (cutoff <=? when) && (strip (text item) =? strip text0)%string
       end)
    (rev (history state)).

(** The body of [recently_used_media] once the clock has been read. *)
Definition recently_used_media_at (now : instant) (state : State)
    (media_path : string) (days : Z) : bool :=
  let cutoff := now - timedelta_days days in
  existsb
    (fun item =>
       match ts item, media item with
       | Some when, Some mp =>
           if nonempty mp then (cutoff <=? when) && (mp =? media_path)%string
           else false
       | _, _ => false
       end)
    (rev (history state)).

(** ** Windows and quiet hours *)

Inductive Window : Type := morning | evening | midday | other_window.

Definition in_time_window (now_local : datetime) (window : Window) : bool :=
  let h := hour now_local in
  match window with
  | morning => (7 <=? h) && (h <? 11)
  | evening => (19 <=? h) && (h <? 23)
  | midday => (11 <=? h) && (h <? 19)
  | other_window => false
  end.

Definition is_quiet_hours (now_local : datetime) : bool :=
  let h := hour now_local in
  if NO_POST_START_HOUR <=? NO_POST_END_HOUR then
    (NO_POST_START_HOUR <=? h) && (h <? NO_POST_END_HOUR)
  else (NO_POST_START_HOUR <=? h) || (h <? NO_POST_END_HOUR).

(** ** Action selection with caps *)

Definition choose_action_with_caps (now_local : datetime) (pertype : PerType)
    : Action :=
  let h := hour now_local in
  if (7 <=? h) && (h <? 11) then
    if (pertype_get pertype post_img_gmgn_short <? MAX_IMG_GMGN_PER_DAY)
       && (pertype_get pertype post_img_gmgn_short =? 0)
    then post_img_gmgn_short
    else if pertype_get pertype post_short_link <? MAX_SHORT_LINK_PER_DAY
    then post_short_link
    else if pertype_get pertype post_gmgn_long <? MAX_GMGN_LONG_PER_DAY
    then post_gmgn_long
    else reblog
  else if (11 <=? h) && (h <? 19) then
    if pertype_get pertype post_short_link <? MAX_SHORT_LINK_PER_DAY
    then post_short_link
    else if pertype_get pertype post_gmgn_long <? MAX_GMGN_LONG_PER_DAY
    then post_gmgn_long
    else reblog
  else if (19 <=? h) && (h <? 23) then
    if pertype_get pertype post_img_gmgn_short <? MAX_IMG_GMGN_PER_DAY
    then post_img_gmgn_short
    else if pertype_get pertype post_short_link <? MAX_SHORT_LINK_PER_DAY
    then post_short_link
    else if pertype_get pertype post_gmgn_long <? MAX_GMGN_LONG_PER_DAY
    then post_gmgn_long
    else reblog
  else if pertype_get pertype post_short_link <? MAX_SHORT_LINK_PER_DAY
  then post_short_link
  else if pertype_get pertype post_gmgn_long <? MAX_GMGN_LONG_PER_DAY
  then post_gmgn_long
  else reblog.

(** The local function [downgrade_from] of [do_one_action]. *)
Definition downgrade_from (pertype : PerType) (action_name : Action) : Action :=
  match action_name with
  | post_img_gmgn_short =>
      if pertype_get pertype post_short_link <? MAX_SHORT_LINK_PER_DAY
      then post_short_link
      else if pertype_get pertype post_gmgn_long <? MAX_GMGN_LONG_PER_DAY
      then post_gmgn_long
      else reblog
  | post_gmgn_long =>
      if pertype_get pertype post_short_link <? MAX_SHORT_LINK_PER_DAY
      then post_short_link
      else reblog
  | post_short_link =>
      if pertype_get pertype post_gmgn_long <? MAX_GMGN_LONG_PER_DAY
      then post_gmgn_long
      else reblog
  | reblog => reblog
  end.

Definition can_post (state : State) : bool :=
  (d_posts (daily state) <? MAX_POSTS_PER_DAY)
  && (h_posts (hourly state) <? MAX_POSTS_PER_HOUR).

Definition can_engage (state : State) : bool :=
  (d_engagements (daily state) <? MAX_ENGAGEMENTS_PER_DAY)
  && (h_engagements (hourly state) <? MAX_ENGAGEMENTS_PER_HOUR).


(** ** The world outside the program *)

(** A tape of readings: the values in [upcoming] are delivered in order,
    [thereafter] for ever after. *)
Record tape (A : Type) : Type := Tape {
  upcoming : list A;
  thereafter : A
}.

Definition next {A : Type} (t : tape A) : A * tape A :=
  match upcoming t with
  | [] => (thereafter t, t)
  | x :: xs => (x, Tape xs (thereafter t))
  end.

(** A Python exception, with the text [str(exc)] gives. *)
Inductive exn : Type := Exception (msg : string).

Definition exn_str (e : exn) : string := match e with Exception m => m end.

(** A notification of the server: [n.get("type")], [n.get("id")], and
    [n.get("status")] reduced to the identifier the program reads from it
    ([None] when the status is missing or empty). *)
Record Notification : Type := mkNotification {
  n_type : string;
  n_id : pyid;
  n_status : option pyid
}.

(** A status of the home timeline: [item.get("id")], the account's
    identifier, and whether [item.get("reblog")] is set. *)
Record Status : Type := mkStatus {
  s_id : pyid;
  s_account : pyid;
  s_is_reblog : bool
}.

Inductive call : Type :=
| call_notifications (limit : Z)
| call_status_favourite (status_id : pyid)
| call_status_reblog (status_id : pyid)
| call_reply (status_id : pyid) (reply : string)
| call_timeline_home (limit : Z)
| call_post_status (text0 : string) (image_path : option string)
| call_account_verify_credentials.

Inductive event : Type :=
| Slept (seconds : Q)
| Called (c : call).

Record World : Type := mkWorld {
  clock_local : tape datetime;          (* dt.datetime.now(tz) *)
  clock_utc : tape instant;             (* dt.datetime.now(tz=utc) *)
  random_floats : tape Q;               (* random.random() *)
  random_ints : tape nat;               (* draws of choice and shuffle *)
  local_images : tape (list string);    (* list_local_images(IMAGES_DIR) *)
  srv_notifications : tape (exn + list Notification);
  srv_favourite : tape (exn + unit);
  srv_reblog : tape (exn + unit);
  srv_reply : tape (exn + unit);
  srv_timeline : tape (exn + list Status);
  srv_post : tape (exn + pyid);
  srv_verify : tape (exn + pyid);
  state_file : option State;            (* what save_state wrote last *)
  trace : list event                    (* sleeps and remote calls, latest first *)
}.

Definition set_clock_local (t : tape datetime) (w : World) : World :=
  mkWorld t (clock_utc w) (random_floats w) (random_ints w) (local_images w)
    (srv_notifications w) (srv_favourite w) (srv_reblog w) (srv_reply w)
    (srv_timeline w) (srv_post w) (srv_verify w) (state_file w) (trace w).

Definition set_clock_utc (t : tape instant) (w : World) : World :=
  mkWorld (clock_local w) t (random_floats w) (random_ints w) (local_images w)
    (srv_notifications w) (srv_favourite w) (srv_reblog w) (srv_reply w)
    (srv_timeline w) (srv_post w) (srv_verify w) (state_file w) (trace w).

Definition set_random_floats (t : tape Q) (w : World) : World :=
  mkWorld (clock_local w) (clock_utc w) t (random_ints w) (local_images w)
    (srv_notifications w) (srv_favourite w) (srv_reblog w) (srv_reply w)
    (srv_timeline w) (srv_post w) (srv_verify w) (state_file w) (trace w).

Definition set_random_ints (t : tape nat) (w : World) : World :=
  mkWorld (clock_local w) (clock_utc w) (random_floats w) t (local_images w)
    (srv_notifications w) (srv_favourite w) (srv_reblog w) (srv_reply w)
    (srv_timeline w) (srv_post w) (srv_verify w) (state_file w) (trace w).

Definition set_local_images (t : tape (list string)) (w : World) : World :=
  mkWorld (clock_local w) (clock_utc w) (random_floats w) (random_ints w) t
    (srv_notifications w) (srv_favourite w) (srv_reblog w) (srv_reply w)
    (srv_timeline w) (srv_post w) (srv_verify w) (state_file w) (trace w).

Definition set_srv_notifications (t : tape (exn + list Notification))
    (w : World) : World :=
  mkWorld (clock_local w) (clock_utc w) (random_floats w) (random_ints w)
    (local_images w) t (srv_favourite w) (srv_reblog w) (srv_reply w)
    (srv_timeline w) (srv_post w) (srv_verify w) (state_file w) (trace w).

Definition set_srv_favourite (t : tape (exn + unit)) (w : World) : World :=
  mkWorld (clock_local w) (clock_utc w) (random_floats w) (random_ints w)
    (local_images w) (srv_notifications w) t (srv_reblog w) (srv_reply w)
    (srv_timeline w) (srv_post w) (srv_verify w) (state_file w) (trace w).

Definition set_srv_reblog (t : tape (exn + unit)) (w : World) : World :=
  mkWorld (clock_local w) (clock_utc w) (random_floats w) (random_ints w)
    (local_images w) (srv_notifications w) (srv_favourite w) t (srv_reply w)
    (srv_timeline w) (srv_post w) (srv_verify w) (state_file w) (trace w).

Definition set_srv_reply (t : tape (exn + unit)) (w : World) : World :=
  mkWorld (clock_local w) (clock_utc w) (random_floats w) (random_ints w)
    (local_images w) (srv_notifications w) (srv_favourite w) (srv_reblog w) t
    (srv_timeline w) (srv_post w) (srv_verify w) (state_file w) (trace w).

Definition set_srv_timeline (t : tape (exn + list Status)) (w : World) : World :=
  mkWorld (clock_local w) (clock_utc w) (random_floats w) (random_ints w)
    (local_images w) (srv_notifications w) (srv_favourite w) (srv_reblog w)
    (srv_reply w) t (srv_post w) (srv_verify w) (state_file w) (trace w).

Definition set_srv_post (t : tape (exn + pyid)) (w : World) : World :=
  mkWorld (clock_local w) (clock_utc w) (random_floats w) (random_ints w)
    (local_images w) (srv_notifications w) (srv_favourite w) (srv_reblog w)
    (srv_reply w) (srv_timeline w) t (srv_verify w) (state_file w) (trace w).

Definition set_srv_verify (t : tape (exn + pyid)) (w : World) : World :=
  mkWorld (clock_local w) (clock_utc w) (random_floats w) (random_ints w)
    (local_images w) (srv_notifications w) (srv_favourite w) (srv_reblog w)
    (srv_reply w) (srv_timeline w) (srv_post w) t (state_file w) (trace w).

Definition set_state_file (s : option State) (w : World) : World :=
  mkWorld (clock_local w) (clock_utc w) (random_floats w) (random_ints w)
    (local_images w) (srv_notifications w) (srv_favourite w) (srv_reblog w)
    (srv_reply w) (srv_timeline w) (srv_post w) (srv_verify w) s (trace w).

Definition set_trace (l : list event) (w : World) : World :=
  mkWorld (clock_local w) (clock_utc w) (random_floats w) (random_ints w)
    (local_images w) (srv_notifications w) (srv_favourite w) (srv_reblog w)
    (srv_reply w) (srv_timeline w) (srv_post w) (srv_verify w) (state_file w) l.

(** ** Computations that read and write the world *)

(** How a call ends: it returns, it raises, or it is still running when
    the fuel of a loop is spent. *)
Inductive outcome (A : Type) : Type :=
| Ret (a : A)
| Raise (e : exn)
| Hang.

Arguments Raise {A} e.
Arguments Hang {A}.

Definition W (A : Type) : Type := World -> outcome A * World.

Definition ret {A : Type} (a : A) : W A := fun w => (Ret a, w).

Definition raise {A : Type} (e : exn) : W A := fun w => (Raise e, w).

Definition bind {A B : Type} (m : W A) (k : A -> W B) : W B :=
  fun w =>
    match m w with
    | (Ret a, w') => k a w'
    | (Raise e, w') => (Raise e, w')
    | (Hang, w') => (Hang, w')
    end.

(** [try: m  except Exception as e: handler e] *)
Definition try_except {A : Type} (m : W A) (handler : exn -> W A) : W A :=
  fun w =>
    match m w with
    | (Raise e, w') => handler e w'
    | r => r
    end.

Declare Scope world_scope.
Delimit Scope world_scope with world.
Notation "x <- m ;; k" := (bind m (fun x => k))
  (at level 61, m at next level, right associativity) : world_scope.
Notation "m ;; k" := (bind m (fun _ => k))
  (at level 61, right associativity) : world_scope.
Local Open Scope world_scope.

Definition read {A : Type} (get : World -> tape A)
    (set : tape A -> World -> World) : W A :=
  fun w => let (x, t) := next (get w) in (Ret x, set t w).

Definition emit (e : event) : W unit :=
  fun w => (Ret tt, set_trace (e :: trace w) w).

(** [time.sleep(seconds)] *)
Definition sleep (seconds : Q) : W unit := emit (Slept seconds).

(** [dt.datetime.now(tz)] *)
Definition datetime_now : W datetime := read clock_local set_clock_local.

(** [dt.datetime.now(tz=dt.timezone.utc)] *)
Definition utc_now : W instant := read clock_utc set_clock_utc.

(** *** The random generator *)

(** [random.random()] *)
Definition random_random : W Q := read random_floats set_random_floats.

(** [random.uniform(a, b)] is [a + (b - a) * random()]. *)
Definition random_uniform (a b : Z) : W Q :=
  r <- random_random ;;
  ret (inject_Z a + (inject_Z b - inject_Z a) * r)%Q.

(** A draw below [n], for [n] positive. *)
Definition randbelow (n : nat) : W nat :=
  r <- read random_ints set_random_ints ;;
  ret (Nat.modulo r n).

(** [random.choice(seq)], an [IndexError] on an empty sequence. *)
Definition random_choice {A : Type} (seq : list A) : W A :=
  match seq with
  | [] => raise (Exception "Cannot choose from an empty sequence")
  | x :: _ => i <- randbelow (List.length seq) ;; ret (nth i seq x)
  end.

(** [x[i] = v], for [i] in range. *)
Fixpoint set_nth {A : Type} (i : nat) (v : A) (x : list A) : list A :=
  match x, i with
  | [], _ => []
  | _ :: t, O => v :: t
  | h :: t, S i' => h :: set_nth i' v t
  end.

(** [x[i], x[j] = x[j], x[i]] *)
Definition swap {A : Type} (i j : nat) (x : list A) : list A :=
  match nth_error x i, nth_error x j with
  | Some xi, Some xj => set_nth j xi (set_nth i xj x)
  | _, _ => x
  end.

(** The loop of [random.shuffle]:
    [for i in reversed(range(1, len(x))): j = randbelow(i + 1); swap]. *)
Fixpoint shuffle_from {A : Type} (i : nat) (x : list A) : W (list A) :=
  match i with
  | O => ret x
  | S i' =>
      j <- randbelow (S i) ;;
      shuffle_from i' (swap i j x)
  end.

(** [random.shuffle(x)]; the shuffled list is the answer. *)
Definition random_shuffle {A : Type} (x : list A) : W (list A) :=
  shuffle_from (List.length x - 1) x.

Definition Qltb (x y : Q) : bool := negb (Qle_bool y x).

(** ** The client and its retries *)

Definition _needs_backoff (exc : exn) : bool :=
  let msg := lower (exn_str exc) in
  contains "429" msg || contains "rate limit" msg || contains "ratelimit" msg
  || contains "too many requests" msg.

Definition OverflowError : exn :=
  Exception "int too large to convert to float".

(** [min(delay * (2 ** (tries - 1)), 60.0)] with [delay = 5.0].  The power
    is an [int]; the product converts it to a [float], which raises
    [OverflowError] from [2 ** 1024] on.  Below that the result is the
    exact minimum (the product is exact up to [2 ** 1021] and infinite for
    the next two powers, where the minimum is 60 all the same). *)
Definition backoff_sleep (tries : Z) : exn + Z :=
  if 1024 <=? tries - 1 then inl OverflowError
  else inr (Z.min (5 * 2 ^ (tries - 1)) 60).

(** The [while True] loop of the wrapper that [with_backoff] returns;
    [tries] is the value of the counter when the round starts. *)
Fixpoint with_backoff_loop {A : Type} (fuel : nat) (fn : W A) (tries : Z)
    : W A :=
  match fuel with
  | O => fun w => (Hang, w)
  | S fuel' =>
      try_except fn
        (fun e =>
           let tries := tries + 1 in
           if _needs_backoff e then
             match backoff_sleep tries with
             | inl overflow => raise overflow
             | inr sleep_s =>
                 sleep (inject_Z sleep_s) ;;
                 with_backoff_loop fuel' fn tries
             end
           else if tries <=? 2 then
             sleep (inject_Z (2 * tries)) ;;
             with_backoff_loop fuel' fn tries
           else raise e)
  end.

(** No run of the loop goes beyond 1025 rounds (see
    [with_backoff_loop_rounds]). *)
Definition with_backoff {A : Type} (fn : W A) : W A :=
  with_backoff_loop 1025 fn 0.

(** One call to the server: the call is recorded, the server's answer is
    read from the tape of that entry point. *)
Definition remote {A : Type} (c : call) (get : World -> tape (exn + A))
    (set : tape (exn + A) -> World -> World) : W A :=
  emit (Called c) ;;
  r <- read get set ;;
  match r with
  | inl e => raise e
  | inr a => ret a
  end.

(** [post_status]: the answer is [st["id"]], or [None]. *)
Definition post_status (text0 : string) (image_path : option string) : W pyid :=
  with_backoff (remote (call_post_status text0 image_path) srv_post set_srv_post).

Definition list_notifications (limit : Z) : W (list Notification) :=
  with_backoff
    (remote (call_notifications limit) srv_notifications set_srv_notifications).

Definition favourite_status (status_id : pyid) : W bool :=
  with_backoff
    (remote (call_status_favourite status_id) srv_favourite set_srv_favourite ;;
     ret true).

Definition reblog_status (status_id : pyid) : W bool :=
  with_backoff
    (remote (call_status_reblog status_id) srv_reblog set_srv_reblog ;;
     ret true).

Definition reply_to_status (status_id : pyid) (text0 : string) : W bool :=
  with_backoff
    (remote (call_reply status_id text0) srv_reply set_srv_reply ;;
     ret true).

Definition timeline_home (limit : Z) : W (list Status) :=
  with_backoff
    (remote (call_timeline_home limit) srv_timeline set_srv_timeline).

(** [client.account_verify_credentials().get("id")], not wrapped. *)
Definition account_verify_credentials : W pyid :=
  remote call_account_verify_credentials srv_verify set_srv_verify.

(** ** Content pickers *)

(** [recently_used_text(state, text)]: the clock is read at each call. *)
Definition recently_used_text (state : State) (text0 : string) (days : Z)
    : W bool :=
  now <- utc_now ;;
  ret (recently_used_text_at now state text0 days).

Definition recently_used_media (state : State) (media_path : string)
    (days : Z) : W bool :=
  now <- utc_now ;;
  ret (recently_used_media_at now state media_path days).

(** [list_local_images(IMAGES_DIR)]: the listing of the directory. *)
Definition list_local_images : W (list string) :=
  read local_images set_local_images.

(** The [for img in imgs] loop of [pick_fresh_image]. *)
Fixpoint first_fresh_image (state : State) (imgs : list string)
    : W (option string) :=
  match imgs with
  | [] => ret None
  | img :: rest =>
      used <- recently_used_media state img IMAGE_RECENCY_DAYS ;;
      if negb used then ret (Some img) else first_fresh_image state rest
  end.

Definition pick_fresh_image (state : State) : W (option string) :=
  imgs <- list_local_images ;;
  match imgs with
  | [] => ret None
  | _ :: _ =>
      imgs <- random_shuffle imgs ;;
      found <- first_fresh_image state imgs ;;
      match found with
      | Some img => ret (Some img)
      | None => img <- random_choice imgs ;; ret (Some img)
      end
  end.

(** The [for s in shuffled] loop of [pick_without_recent] (and of
    [pick_link_short]). *)
Fixpoint first_not_recent (state : State) (shuffled : list string)
    : W (option string) :=
  match shuffled with
  | [] => ret None
  | s :: rest =>
      used <- recently_used_text state s 7 ;;
      if negb used then ret (Some s) else first_not_recent state rest
  end.

Definition pick_without_recent (state : State) (pool : list string) : W string :=
  shuffled <- random_shuffle pool ;;
  found <- first_not_recent state shuffled ;;
  match found with
  | Some s => ret s
  | None => random_choice pool
  end.

Definition build_gm_short : W string := random_choice GM_SHORT.

Definition build_gn_short : W string :=
  base <- random_choice GN_SHORT_BASE ;;
  r <- random_random ;;
  if Qltb r (85 # 100) then
    emoji <- random_choice RANDOM_GN_EMOJIS ;;
    ret (base ++ " " ++ emoji)%string
  else ret base.

Definition pick_gmgn_text (state : State) (now_local : datetime) (long : bool)
    : W string :=
  if in_time_window now_local morning then
    if long then pick_without_recent state GM_LONG else build_gm_short
  else if in_time_window now_local evening then
    if long then pick_without_recent state GN_LONG else build_gn_short
  else build_gm_short.

Definition pick_link_short (state : State) : W string :=
  pools <- random_shuffle LINK_POOLS ;;
  found <- first_not_recent state pools ;;
  match found with
  | Some url => ret url
  | None => random_choice LINK_POOLS
  end.

(** ** Opt-in engagements *)

Definition fetch_unprocessed_mentions (state : State) (limit : Z)
    : W (list Notification) :=
  items <- list_notifications limit ;;
  let processed := processed_notifications state in
  ret (filter
         (fun n =>
            if negb (n_type n =? "mention")%string then false
            else
              let nid := str (n_id n) in
              if negb (nonempty nid) || mem nid processed then false
              else true)
         items).

(** The answer is [None], ["favourite"] or ["reply:..."]. *)
Definition engage_for_notification (n : Notification) : W (option string) :=
  match n_status n with
  | None => ret None
  | Some sid =>
      if negb (truthy sid) then ret None
      else
        r <- random_random ;;
        if Qltb r (75 # 100) then
          favourite_status sid ;;
          ret (Some "favourite")
        else
          r' <- random_random ;;
          reply <- (if Qltb r' (7 # 10) then random_choice COMMENT_SHORT
                    else random_choice COMMENT_EMOJIS) ;;
          reply_to_status sid reply ;;
          ret (Some ("reply:" ++ reply)%string)
  end.

(** ** Safe reblog picker *)

(** The [for item in tl] loop of [pick_safe_reblog]. *)
Fixpoint first_safe_reblog (recent : list string) (tl : list Status) : W pyid :=
  match tl with
  | [] => ret IdNone
  | item :: rest =>
      let acct := s_account item in
      my_id <- try_except account_verify_credentials (fun _ => ret IdNone) ;;
      if truthy my_id && pyid_eqb acct my_id then first_safe_reblog recent rest
      else
        let sid := s_id item in
        if negb (truthy sid) then first_safe_reblog recent rest
        else if mem (str sid) recent then first_safe_reblog recent rest
        else if s_is_reblog item then first_safe_reblog recent rest
        else ret sid
  end.

(** The answer is the identifier to reblog, or [None]. *)
Definition pick_safe_reblog (state : State) : W pyid :=
  tl <- timeline_home 50 ;;
  let recent := recent_reblogs state in
  tl <- random_shuffle tl ;;
  first_safe_reblog recent tl.

(** ** The action engine *)

(** The value [do_one_action] returns. *)
Inductive Result : Type := engaged | reblogged | posted | post_failed | skip.

(** A computation that also updates the [state] dictionary it is given.
    The dictionary is kept when the computation raises: the caller's loop
    goes on with it. *)
Definition SM (A : Type) : Type := State -> World -> outcome A * State * World.

Definition sm_ret {A : Type} (a : A) : SM A := fun s w => (Ret a, s, w).

Definition sm_bind {A B : Type} (m : SM A) (k : A -> SM B) : SM B :=
  fun s w =>
    match m s w with
    | (Ret a, s', w') => k a s' w'
    | (Raise e, s', w') => (Raise e, s', w')
    | (Hang, s', w') => (Hang, s', w')
    end.

Definition sm_try {A : Type} (m : SM A) (handler : exn -> SM A) : SM A :=
  fun s w =>
    match m s w with
    | (Raise e, s', w') => handler e s' w'
    | r => r
    end.

(** A call that reads the state and the world and leaves the state alone. *)
Definition lift {A : Type} (m : State -> W A) : SM A :=
  fun s w => let (o, w') := m s w in (o, s, w').

(** An assignment to the state. *)
Definition update (f : State -> State) : SM unit :=
  fun s w => (Ret tt, f s, w).

Definition get_state : SM State := fun s w => (Ret s, s, w).

(** [save_state(state)]: the file now holds the state; the write itself,
    like [print] and [time.sleep], is taken to succeed. *)
Definition save_state : SM unit :=
  fun s w => (Ret tt, s, set_state_file (Some s) w).

Declare Scope cycle_scope.
Delimit Scope cycle_scope with cycle.
Notation "x <- m ;; k" := (sm_bind m (fun x => k))
  (at level 61, m at next level, right associativity) : cycle_scope.
Notation "m ;; k" := (sm_bind m (fun _ => k))
  (at level 61, right associativity) : cycle_scope.
Local Open Scope cycle_scope.

(** [time.sleep(random.uniform(lo, hi))] *)
Definition nap (lo hi : Z) : SM unit :=
  lift (fun _ => (d <- random_uniform lo hi ;; sleep d)%world).

(** Lines 505-510: the notification is marked and the engagement counted. *)
Definition record_engagement (nid : string) (state : State) : State :=
  let state :=
    if nonempty nid then
      let state :=
        set_processed_notifications state
          (processed_notifications state ++ [nid]) in
      set_processed_notifications state
        (last_n 500 (processed_notifications state))
    else state in
  let state :=
    set_daily state
      (mkDaily (d_date (daily state)) (d_posts (daily state))
         (d_engagements (daily state) + 1)) in
  set_hourly state
    (mkHourly (h_key (hourly state)) (h_posts (hourly state))
       (h_engagements (hourly state) + 1)).

(** The three counters a post or a reblog increments. *)
Definition count_post (action : Action) (state : State) : State :=
  let state :=
    set_daily state
      (mkDaily (d_date (daily state)) (d_posts (daily state) + 1)
         (d_engagements (daily state))) in
  let state :=
    set_hourly state
      (mkHourly (h_key (hourly state)) (h_posts (hourly state) + 1)
         (h_engagements (hourly state))) in
  set_pertype state
    (pertype_set (pertype state) action
       (pertype_get (pertype state) action + 1)).

(** Lines 548-552 (and 594-598): the reblog is remembered and counted. *)
Definition record_reblog (sid : pyid) (state : State) : State :=
  let state :=
    set_recent_reblogs state (recent_reblogs state ++ [str sid]) in
  let state :=
    set_recent_reblogs state (last_n 400 (recent_reblogs state)) in
  count_post reblog state.

(** [remember_post(state, text, media=image)] *)
Definition remember_post (text0 : string) (media0 : option string) : SM unit :=
  now <- lift (fun _ => utc_now) ;;
  update (fun state => remember_post_at now state text0 media0).

(** Step 1 of [do_one_action]: [Some engaged] when the function returns
    there, [None] when it goes on to step 2. *)
Definition engage_step : SM (option Result) :=
  state <- get_state ;;
  if can_engage state then
    fresh_mentions <- lift (fun state => fetch_unprocessed_mentions state 40) ;;
    fresh_mentions <- lift (fun _ => random_shuffle fresh_mentions) ;;
    match fresh_mentions with
    | [] => sm_ret None
    | n :: _ =>
        kind <- lift (fun _ => engage_for_notification n) ;;
        match kind with
        | None => sm_ret None
        | Some k =>
            if nonempty k then
              let nid := str (n_id n) in
              update (record_engagement nid) ;;
              save_state ;;
              nap DELAY_ENGAGE_MIN_S DELAY_ENGAGE_MAX_S ;;
              sm_ret (Some engaged)
            else sm_ret None
        end
    end
  else sm_ret None.

(** [if sid: try: ... return "reblogged"  except Exception: ...]; [None]
    when the function goes on after the block. *)
Definition try_reblog (sid : pyid) : SM (option Result) :=
  if truthy sid then
    sm_try
      (lift (fun _ => reblog_status sid) ;;
       update (record_reblog sid) ;;
       save_state ;;
       nap DELAY_POST_MIN_S DELAY_POST_MAX_S ;;
       sm_ret (Some reblogged))
      (fun _ => sm_ret None)
  else sm_ret None.

(** The local variables [action], [text] and [image]. *)
Record Locals : Type := mkLocals {
  action : Action;
  text_ : option string;
  image : option string
}.

(** Lines 543-567, when [action == "reblog"] at the start: the answer is
    the value returned, or the action the function falls back to. *)
Definition reblog_first (pertype0 : PerType) : SM (Result + Action) :=
  sid <- lift pick_safe_reblog ;;
  r <- try_reblog sid ;;
  match r with
  | Some res => sm_ret (inl res)
  | None =>
      if pertype_get pertype0 post_short_link <? MAX_SHORT_LINK_PER_DAY
      then sm_ret (inr post_short_link)
      else if pertype_get pertype0 post_gmgn_long <? MAX_GMGN_LONG_PER_DAY
      then sm_ret (inr post_gmgn_long)
      else sm_ret (inl skip)
  end.

(** Lines 569-573 *)
Definition prepare_img (now_local : datetime) (pertype0 : PerType)
    (l : Locals) : SM Locals :=
  match action l with
  | post_img_gmgn_short =>
      text1 <- lift (fun state => pick_gmgn_text state now_local false) ;;
      image1 <- lift pick_fresh_image ;;
      match image1 with
      | None =>
          sm_ret (mkLocals (downgrade_from pertype0 post_img_gmgn_short)
                    (Some text1) None)
      | Some _ => sm_ret (mkLocals (action l) (Some text1) image1)
      end
  | _ => sm_ret l
  end.

(** Lines 575-581 *)
Definition prepare_long (now_local : datetime) (pertype0 : PerType)
    (l : Locals) : SM Locals :=
  match action l with
  | post_gmgn_long =>
      if MAX_GMGN_LONG_PER_DAY <=? pertype_get pertype0 post_gmgn_long then
        sm_ret (mkLocals (downgrade_from pertype0 post_gmgn_long)
                  (text_ l) (image l))
      else
        text1 <- lift (fun state => pick_gmgn_text state now_local true) ;;
        r <- lift (fun _ => random_random) ;;
        if Qltb r (30 # 100) then
          image1 <- lift pick_fresh_image ;;
          sm_ret (mkLocals (action l) (Some text1) image1)
        else sm_ret (mkLocals (action l) (Some text1) (image l))
  | _ => sm_ret l
  end.

(** Lines 583-587 *)
Definition prepare_link (pertype0 : PerType) (l : Locals) : SM Locals :=
  match action l with
  | post_short_link =>
      if MAX_SHORT_LINK_PER_DAY <=? pertype_get pertype0 post_short_link then
        sm_ret (mkLocals (downgrade_from pertype0 post_short_link)
                  (text_ l) (image l))
      else
        text1 <- lift pick_link_short ;;
        sm_ret (mkLocals (action l) (Some text1) (image l))
  | _ => sm_ret l
  end.

(** Lines 589-607: both ways out of the block return. *)
Definition reblog_last : SM Result :=
  sid <- lift pick_safe_reblog ;;
  r <- try_reblog sid ;;
  match r with
  | Some res => sm_ret res
  | None => sm_ret skip
  end.

(** Lines 609-631, reached with an action other than ["reblog"]. *)
Definition publish (l : Locals) : SM Result :=
  match text_ l with
  | None => sm_ret skip
  | Some text1 =>
      if negb (nonempty text1) then sm_ret skip
      else
        r <- sm_try
               (sid <- lift (fun _ => post_status text1 (image l)) ;;
                sm_ret (Some sid))
               (fun _ => sm_ret None) ;;
        match r with
        | None => sm_ret post_failed
        | Some sid =>
            if truthy sid then
              remember_post text1 (image l) ;;
              update (count_post (action l)) ;;
              save_state ;;
              nap DELAY_POST_MIN_S DELAY_POST_MAX_S ;;
              sm_ret posted
            else sm_ret post_failed
        end
  end.

(** Step 2 of [do_one_action], inside [if can_post(state) and not
    is_quiet_hours(now_local)].  [pertype] is the dictionary of the state;
    nothing writes to it before the function is about to return. *)
Definition post_step (now_local : datetime) : SM Result :=
  state <- get_state ;;
  let pertype0 := pertype state in
  let action0 := choose_action_with_caps now_local pertype0 in
  first <- (if Action_eqb action0 reblog then reblog_first pertype0
            else sm_ret (inr action0)) ;;
  match first with
  | inl res => sm_ret res
  | inr action1 =>
      l <- prepare_img now_local pertype0 (mkLocals action1 None None) ;;
      l <- prepare_long now_local pertype0 l ;;
      l <- prepare_link pertype0 l ;;
      if Action_eqb (action l) reblog then reblog_last else publish l
  end.

(** [do_one_action] once [now_local] has been read. *)
Definition do_one_action_at (now_local : datetime) : SM Result :=
  update (fun state => reset_daily_if_needed state now_local) ;;
  update (fun state => reset_hourly_if_needed state now_local) ;;
  r <- engage_step ;;
  match r with
  | Some res => sm_ret res
  | None =>
      state <- get_state ;;
      if can_post state && negb (is_quiet_hours now_local)
      then post_step now_local
      else sm_ret skip
  end.

Definition do_one_action : SM Result :=
  now_local <- lift (fun _ => datetime_now) ;;
  do_one_action_at now_local.

(** The states of a run: [load_state] on first start, and the state after
    each cycle, whatever the world does and however the cycle ends. *)
Inductive reachable : State -> Prop :=
| reachable_fresh : reachable fresh_state
| reachable_cycle (s : State) (w : World) :
    reachable s -> reachable (snd (fst (do_one_action s w))).

(** ** The loop of [main] *)

(** Lines 664-669: the length of the sleep between two cycles, before the
    occasional extra pause. *)
Definition base_nap (now_local : datetime) : W Q :=
  (if is_quiet_hours now_local then random_uniform (70 * 60) (120 * 60)
   else if (7 <=? hour now_local) && (hour now_local <? 23)
   then random_uniform (25 * 60) (55 * 60)
   else random_uniform (45 * 60) (80 * 60))%world.

(** Lines 663-673: the sleep between two cycles. *)
Definition inter_cycle_nap : W unit :=
  (now_local <- datetime_now ;;
   nap <- base_nap now_local ;;
   r <- random_random ;;
   nap <- (if Qltb r (18 # 100) then
             extra <- random_uniform (20 * 60) (40 * 60) ;;
             ret (nap + extra)%Q
           else ret nap) ;;
   sleep nap)%world.

(** One round of the [while True] loop of [main]: an [Exception] of the
    cycle is answered by a pause of 60 to 120 seconds
    ([KeyboardInterrupt], which is no [Exception], is not modelled). *)
Definition loop_round : SM unit :=
  sm_try (do_one_action ;; sm_ret tt)
    (fun _ => lift (fun _ => (cool <- random_uniform 60 120 ;; sleep cool)%world)) ;;
  lift (fun _ => inter_cycle_nap).

(** * Vocabulary of the properties *)

(** Every answer of [m], in every world, satisfies [R]. *)
Definition wsat {A : Type} (m : W A) (R : outcome A -> Prop) : Prop :=
  forall w, R (fst (m w)).

(** [m] comes to an end: it returns or raises. *)
Definition ends {A : Type} (o : outcome A) : Prop := o <> Hang.

(** A call that cannot fail. *)
Definition succeeds {A : Type} (o : outcome A) : Prop :=
  match o with
  | Ret _ => True
  | _ => False
  end.

(** The status that the loop of [pick_safe_reblog] answers is [None] or
    one whose identifier is not in the list of recent reblogs. *)
Definition safe_reblog (recent : list string) (o : outcome pyid) : Prop :=
  match o with
  | Ret sid => truthy sid = true -> mem (str sid) recent = false
  | Raise _ => True
  | Hang => False
  end.

(** Every answer of [m] started in state [s], and the state it leaves,
    satisfy [Q]. *)
Definition sat {A : Type} (m : SM A) (s : State)
    (Q : outcome A -> State -> Prop) : Prop :=
  forall w, Q (fst (fst (m s w))) (snd (fst (m s w))).

(** The count of a posting action is below its daily cap; ["reblog"] has
    no cap to be under. *)
Definition under_cap (pt : PerType) (a : Action) : Prop :=
  match a with
  | post_img_gmgn_short => pertype_get pt a < MAX_IMG_GMGN_PER_DAY
  | post_gmgn_long => pertype_get pt a < MAX_GMGN_LONG_PER_DAY
  | post_short_link => pertype_get pt a < MAX_SHORT_LINK_PER_DAY
  | reblog => False
  end.

(** Where the text of a long greeting comes from outside the morning and
    evening windows. *)
Definition long_text_ok (now_local : datetime) (a : Action) (t : string) : Prop :=
  a = post_gmgn_long ->
  in_time_window now_local morning = false ->
  in_time_window now_local evening = false ->
  In t GM_SHORT.

(** The ways a cycle can end, from the state [s0] that the two resets
    leave: the answer of [do_one_action] and the state it leaves. *)
Inductive cycle_effect (now_local : datetime) (s0 : State)
    : outcome Result -> State -> Prop :=
| effect_engaged (nid : string) :
    can_engage s0 = true ->
    nonempty nid = true ->
    mem nid (processed_notifications s0) = false ->
    cycle_effect now_local s0 (Ret engaged) (record_engagement nid s0)
| effect_reblogged (sid : pyid) :
    can_post s0 = true ->
    is_quiet_hours now_local = false ->
    mem (str sid) (recent_reblogs s0) = false ->
    cycle_effect now_local s0 (Ret reblogged) (record_reblog sid s0)
| effect_posted (a : Action) (t : string) (img : option string) (at_ : instant) :
    can_post s0 = true ->
    is_quiet_hours now_local = false ->
    under_cap (pertype s0) a ->
    long_text_ok now_local a t ->
    cycle_effect now_local s0 (Ret posted)
      (count_post a (remember_post_at at_ s0 t img))
| effect_post_failed :
    is_quiet_hours now_local = false ->
    cycle_effect now_local s0 (Ret post_failed) s0
| effect_skip : cycle_effect now_local s0 (Ret skip) s0
| effect_raise (e : exn) : cycle_effect now_local s0 (Raise e) s0.

(** What holds of the local variables between the blocks of step 2 of
    a cycle that the resets left in state [s0]. *)
Definition locals_ok (s0 : State) (l : Locals) : Prop :=
  action l = reblog \/ under_cap (pertype s0) (action l).

Definition long_ready (now_local : datetime) (l : Locals) : Prop :=
  action l = post_gmgn_long ->
  exists t, text_ l = Some t /\ long_text_ok now_local (action l) t.

Definition block_post (s0 : State) (P : Locals -> Prop) (o : outcome Locals)
    (s' : State) : Prop :=
  match o with
  | Ret l => s' = s0 /\ P l
  | Raise _ => s' = s0
  | Hang => False
  end.

(** The state after the two resets that open a cycle. *)
Definition after_resets (s : State) (now_local : datetime) : State :=
  reset_hourly_if_needed (reset_daily_if_needed s now_local) now_local.

(** The local time a cycle reads when it starts in world [w]. *)
Definition cycle_time (w : World) : datetime := fst (next (clock_local w)).

Definition within_rate_caps (s : State) : Prop :=
  d_posts (daily s) <= MAX_POSTS_PER_DAY
  /\ d_engagements (daily s) <= MAX_ENGAGEMENTS_PER_DAY
  /\ h_posts (hourly s) <= MAX_POSTS_PER_HOUR
  /\ h_engagements (hourly s) <= MAX_ENGAGEMENTS_PER_HOUR.

Definition within_type_caps (s : State) : Prop :=
  pertype_get (pertype s) post_img_gmgn_short <= MAX_IMG_GMGN_PER_DAY
  /\ pertype_get (pertype s) post_short_link <= MAX_SHORT_LINK_PER_DAY
  /\ pertype_get (pertype s) post_gmgn_long <= MAX_GMGN_LONG_PER_DAY.

Definition no_duplicates (s : State) : Prop :=
  NoDup (processed_notifications s) /\ NoDup (recent_reblogs s).

(** ** Worlds used as examples *)

(** A world where nothing happens: the clock stands at [now_local], the
    random generator answers 0, there are no images, no notifications and
    an empty timeline, and every call to the server succeeds. *)
Definition calm_world (now_local : datetime) : World :=
  mkWorld (Tape [] now_local) (Tape [] 0) (Tape [] 0%Q) (Tape [] 0%nat)
    (Tape [] []) (Tape [] (inr [])) (Tape [] (inr tt)) (Tape [] (inr tt))
    (Tape [] (inr tt)) (Tape [] (inr [])) (Tape [] (inr (IdInt 1)))
    (Tape [] (inr (IdInt 99))) None [].

Definition eight_am : datetime := DateTime 2026 11 4 8.
Definition two_am : datetime := DateTime 2026 11 4 2.

(** One mention, number 7, of status 70. *)
Definition one_mention : list Notification :=
  [ mkNotification "mention" (IdInt 7) (Some (IdInt 70)) ].


(** The mention is there and the server accepts the favourite. *)
Definition favourite_works_world : World :=
  set_srv_notifications (Tape [] (inr one_mention)) (calm_world eight_am).

(** The server answers every favourite with a rate-limit error. *)
Definition always_rate_limited_world : World :=
  set_srv_favourite (Tape [] (inl (Exception "HTTP 429 Too Many Requests")))
    (calm_world eight_am).

(** Eight days after the epoch on the UTC clock. *)
Definition eight_days_later_world : World :=
  set_clock_utc (Tape [] (timedelta_days 8)) (calm_world eight_am).

Definition count_calls (tr : list event) : nat :=
  List.length
    (filter (fun e => match e with Called _ => true | Slept _ => false end) tr).

Definition slept (tr : list event) : list Q :=
  flat_map (fun e => match e with Slept d => [d] | Called _ => [] end) (rev tr).

(** The server answers [n] favourites with a rate-limit error and the
    next one with success. *)
Definition rate_limited_world (n : nat) : World :=
  set_srv_favourite
    (Tape (repeat (inl (Exception "HTTP 429 Too Many Requests")) n) (inr tt))
    (calm_world eight_am).

(** Every reading that a tape will ever deliver satisfies [P]. *)
Definition tape_all {A : Type} (P : A -> Prop) (t : tape A) : Prop :=
  Forall P (upcoming t) /\ P (thereafter t).

(** ** Vocabulary of the further properties *)

(** The hours of a day and the days of a month, as the clock gives them. *)
Definition hours_of_day : list Z := map Z.of_nat (seq 0 24).
Definition days_of_month : list Z := map Z.of_nat (seq 1 31).

(** [pad2] gives different texts for different members of [l]. *)
Definition pad2_distinct_on (l : list Z) : bool :=
  forallb
    (fun a => forallb (fun b => implb (pad2 a =? pad2 b)%string (a =? b)) l) l.

(** The short links and the long greetings of the day are used up: the
    only case in which a reblog is chosen. *)
Definition links_and_long_used_up (pt : PerType) : Prop :=
  MAX_SHORT_LINK_PER_DAY <= pertype_get pt post_short_link
  /\ MAX_GMGN_LONG_PER_DAY <= pertype_get pt post_gmgn_long.

(** The daily count of posts is the sum of the counts per type, none of
    which is negative. *)
Definition counts_consistent (s : State) : Prop :=
  d_posts (daily s)
  = pertype_get (pertype s) post_img_gmgn_short
    + pertype_get (pertype s) post_gmgn_long
    + pertype_get (pertype s) post_short_link
    + pertype_get (pertype s) reblog
  /\ 0 <= pertype_get (pertype s) post_img_gmgn_short
  /\ 0 <= pertype_get (pertype s) post_gmgn_long
  /\ 0 <= pertype_get (pertype s) post_short_link
  /\ 0 <= pertype_get (pertype s) reblog.

(** A reblog was counted today only with the links and the long greeting
    used up. *)
Definition reblog_only_when_used_up (s : State) : Prop :=
  0 < pertype_get (pertype s) reblog -> links_and_long_used_up (pertype s).

Definition logs_bounded (s : State) : Prop :=
  (List.length (history s) <= 400)%nat
  /\ (List.length (processed_notifications s) <= 500)%nat
  /\ (List.length (recent_reblogs s) <= 400)%nat.

(** A postcondition on the value returned only. *)
Definition ret_post {A : Type} (P : A -> Prop) (o : outcome A) (s : State)
    : Prop :=
  match o with
  | Ret a => P a
  | _ => True
  end.

(** The action of the local variables is the reblog only with the links
    and the long greeting used up. *)
Definition reblog_justified (pt : PerType) (l : Locals) : Prop :=
  action l = reblog -> links_and_long_used_up pt.

(** The sum of the four counts per type. *)
Definition pertype_total (pt : PerType) : Z :=
  pertype_get pt post_img_gmgn_short + pertype_get pt post_gmgn_long
  + pertype_get pt post_short_link + pertype_get pt reblog.

(** The texts that [_needs_backoff] looks for. *)
Definition rate_limit_marks : list string :=
  [ "429"; "rate limit"; "ratelimit"; "too many requests" ].

(** What [my_id] is in [pick_safe_reblog] after an answer of
    [account_verify_credentials]. *)
Definition verified_id (answer : exn + pyid) : pyid :=
  match answer with
  | inl _ => IdNone
  | inr my_id => my_id
  end.

(** The statuses that the loop of [pick_safe_reblog] does not pass over. *)
Definition eligible_for_reblog (my_id : pyid) (recent : list string)
    (item : Status) : bool :=
  negb (truthy my_id && pyid_eqb (s_account item) my_id)
  && truthy (s_id item)
  && negb (mem (str (s_id item)) recent)
  && negb (s_is_reblog item).

(** A reading of [random.random()]: between 0 and 1. *)
Definition unit_interval (r : Q) : Prop := (0 <= r)%Q /\ (r <= 1)%Q.

(** The sleeps of [n] consecutive rate-limit rounds, the first one with
    the counter at [tries]: [min (5 * 2 ^ tries) 60], then the same with
    [tries + 1], and so on. *)
Fixpoint backoff_schedule (tries : Z) (n : nat) : list Q :=
  match n with
  | O => []
  | S n' =>
      inject_Z (Z.min (5 * 2 ^ tries) 60) :: backoff_schedule (tries + 1) n'
  end.

(** * Properties *)

(** ** Lists *)

Lemma last_n_incl {A : Type} (n : nat) (l : list A) (x : A) :
  In x (last_n n l) -> In x l.
Proof.
  unfold last_n. intros H.
  rewrite <- (firstn_skipn (List.length l - n) l).
  apply in_or_app. now right.
Qed.

Lemma last_n_NoDup {A : Type} (n : nat) (l : list A) :
  NoDup l -> NoDup (last_n n l).
Proof.
  unfold last_n. intros H.
  rewrite <- (firstn_skipn (List.length l - n) l) in H.
  now apply NoDup_app_remove_l in H.
Qed.

Lemma last_n_idem {A : Type} (n : nat) (l : list A) :
  last_n n (last_n n l) = last_n n l.
Proof.
  unfold last_n. rewrite length_skipn.
  replace (List.length l - (List.length l - n) - n)%nat with 0%nat by lia.
  reflexivity.
Qed.

Lemma last_n_length {A : Type} (n : nat) (l : list A) :
  (List.length (last_n n l) <= n)%nat.
Proof. unfold last_n. rewrite length_skipn. lia. Qed.

Lemma last_n_snoc {A : Type} (n : nat) (l : list A) (x : A) :
  (0 < n)%nat -> In x (last_n n (l ++ [x])).
Proof.
  intros Hn. unfold last_n. rewrite length_app. simpl.
  rewrite skipn_app. apply in_or_app. right.
  replace (List.length l + 1 - n - List.length l)%nat with 0%nat by lia.
  simpl. now left.
Qed.

Lemma mem_In (x : string) (l : list string) : mem x l = true <-> In x l.
Proof.
  unfold mem. rewrite existsb_exists. split.
  - intros [y [Hy E]]. apply String.eqb_eq in E. now subst.
  - intros H. exists x. split; [assumption | apply String.eqb_refl].
Qed.

Lemma mem_false (x : string) (l : list string) : mem x l = false <-> ~ In x l.
Proof.
  rewrite <- mem_In. destruct (mem x l); split; congruence.
Qed.

Lemma NoDup_snoc {A : Type} (l : list A) (x : A) :
  NoDup l -> ~ In x l -> NoDup (l ++ [x]).
Proof.
  intros Hl Hx. apply NoDup_rev in Hl.
  rewrite <- (rev_involutive (l ++ [x])). apply NoDup_rev.
  rewrite rev_app_distr. simpl. constructor; [|assumption].
  now rewrite <- in_rev.
Qed.

(** ** What a computation on the world can answer *)

Lemma wsat_conseq {A : Type} (m : W A) (R R' : outcome A -> Prop) :
  wsat m R -> (forall o, R o -> R' o) -> wsat m R'.
Proof. intros H HR w. apply HR, H. Qed.

Lemma wsat_ret {A : Type} (a : A) (R : outcome A -> Prop) :
  R (Ret a) -> wsat (ret a) R.
Proof. intros H w. exact H. Qed.

Lemma wsat_raise {A : Type} (e : exn) (R : outcome A -> Prop) :
  R (Raise e) -> wsat (raise e) R.
Proof. intros H w. exact H. Qed.

Lemma wsat_bind {A B : Type} (m : W A) (k : A -> W B) (R : outcome B -> Prop) :
  wsat m (fun o =>
            match o with
            | Ret a => wsat (k a) R
            | Raise e => R (Raise e)
            | Hang => R Hang
            end) ->
  wsat (bind m k) R.
Proof.
  intros H w. unfold bind. specialize (H w).
  destruct (m w) as [[a|e|] w']; simpl in *; auto.
Qed.

Lemma wsat_try_except {A : Type} (m : W A) (h : exn -> W A)
    (R : outcome A -> Prop) :
  wsat m (fun o =>
            match o with
            | Raise e => wsat (h e) R
            | _ => R o
            end) ->
  wsat (try_except m h) R.
Proof.
  intros H w. unfold try_except. specialize (H w).
  destruct (m w) as [[a|e|] w']; simpl in *; auto.
Qed.

Lemma wsat_read {A : Type} (get : World -> tape A)
    (set : tape A -> World -> World) (R : outcome A -> Prop) :
  (forall x, R (Ret x)) -> wsat (read get set) R.
Proof.
  intros H w. unfold read. destruct (next (get w)). apply H.
Qed.

Lemma wsat_emit (e : event) (R : outcome unit -> Prop) :
  R (Ret tt) -> wsat (emit e) R.
Proof. intros H w. exact H. Qed.

Lemma wsat_and {A : Type} (m : W A) (R R' : outcome A -> Prop) :
  wsat m R -> wsat m R' -> wsat m (fun o => R o /\ R' o).
Proof. intros H H' w. split; [apply H | apply H']. Qed.

(** *** Termination *)

Lemma ends_ret {A : Type} (a : A) : wsat (ret a) ends.
Proof. apply wsat_ret. discriminate. Qed.

Lemma ends_raise {A : Type} (e : exn) : wsat (@raise A e) ends.
Proof. apply wsat_raise. discriminate. Qed.

Lemma ends_bind {A B : Type} (m : W A) (k : A -> W B) :
  wsat m ends -> (forall a, wsat (k a) ends) -> wsat (bind m k) ends.
Proof.
  intros Hm Hk. apply wsat_bind.
  eapply wsat_conseq; [exact Hm|].
  intros [a|e|] Ho; [apply Hk | discriminate | now elim Ho].
Qed.

Lemma ends_try_except {A : Type} (m : W A) (h : exn -> W A) :
  wsat m ends -> (forall e, wsat (h e) ends) -> wsat (try_except m h) ends.
Proof.
  intros Hm Hh. apply wsat_try_except.
  eapply wsat_conseq; [exact Hm|].
  intros [a|e|] Ho; [discriminate | apply Hh | now elim Ho].
Qed.

Lemma ends_read {A : Type} (get : World -> tape A)
    (set : tape A -> World -> World) : wsat (read get set) ends.
Proof. apply wsat_read. discriminate. Qed.

Lemma ends_emit (e : event) : wsat (emit e) ends.
Proof. apply wsat_emit. discriminate. Qed.

Lemma ends_remote {A : Type} (c : call) (get : World -> tape (exn + A))
    (set : tape (exn + A) -> World -> World) : wsat (remote c get set) ends.
Proof.
  unfold remote. apply ends_bind; [apply ends_emit|]. intros _.
  apply ends_bind; [apply ends_read|].
  intros [e|a]; [apply ends_raise | apply ends_ret].
Qed.

(** The loop of the wrapper never needs more than 1025 rounds: the
    counter [tries] grows with every failed round, and no failed round
    with the counter at 1025 goes on. *)
Lemma with_backoff_loop_rounds {A : Type} (fn : W A) (fuel : nat) (tries : Z) :
  wsat fn ends ->
  0 <= tries <= 1024 -> 1025 <= tries + Z.of_nat fuel ->
  wsat (with_backoff_loop fuel fn tries) ends.
Proof.
  intros Hfn. revert tries.
  induction fuel as [|fuel IH]; intros tries Ht Hf.
  - simpl in Hf. lia.
  - cbn [with_backoff_loop]. apply ends_try_except; [exact Hfn|].
    intros e. destruct (_needs_backoff e).
    + unfold backoff_sleep.
      destruct (1024 <=? tries + 1 - 1) eqn:E.
      * apply ends_raise.
      * apply Z.leb_gt in E.
        apply ends_bind; [apply ends_emit|]. intros _.
        apply IH; lia.
    + destruct (tries + 1 <=? 2) eqn:E.
      * apply Z.leb_le in E.
        apply ends_bind; [apply ends_emit|]. intros _.
        apply IH; lia.
      * apply ends_raise.
Qed.

Lemma ends_with_backoff {A : Type} (fn : W A) :
  wsat fn ends -> wsat (with_backoff fn) ends.
Proof.
  intros H. unfold with_backoff.
  apply with_backoff_loop_rounds; [exact H | lia | simpl; lia].
Qed.

Lemma ends_randbelow (n : nat) : wsat (randbelow n) ends.
Proof.
  unfold randbelow. apply ends_bind; [apply ends_read|].
  intros. apply ends_ret.
Qed.

Lemma ends_random_choice {A : Type} (seq : list A) : wsat (random_choice seq) ends.
Proof.
  destruct seq; simpl; [apply ends_raise|].
  apply ends_bind; [apply ends_randbelow|]. intros. apply ends_ret.
Qed.

Lemma ends_shuffle_from {A : Type} (i : nat) (x : list A) :
  wsat (shuffle_from i x) ends.
Proof.
  revert x. induction i as [|i IH]; intros x; cbn [shuffle_from].
  - apply ends_ret.
  - apply ends_bind; [apply ends_randbelow|]. intros j. apply IH.
Qed.

Lemma ends_random_shuffle {A : Type} (l : list A) : wsat (random_shuffle l) ends.
Proof. apply ends_shuffle_from. Qed.

Lemma ends_random_uniform (a b : Z) : wsat (random_uniform a b) ends.
Proof.
  unfold random_uniform. apply ends_bind; [apply ends_read|].
  intros. apply ends_ret.
Qed.

Create HintDb ends discriminated.
#[local] Hint Constants Opaque : ends.
#[local] Hint Resolve ends_ret ends_raise ends_read ends_emit ends_remote
  ends_with_backoff ends_randbelow ends_random_choice ends_random_shuffle
  ends_random_uniform : ends.

(** Splits a sequence of calls, and the branches between them, into the
    calls. *)
Ltac ends_step :=
  match goal with
  | |- wsat (bind _ _) ends => apply ends_bind; [|intros]
  | |- wsat (try_except _ _) ends => apply ends_try_except; [|intros]
  | |- wsat (if ?b then _ else _) ends => destruct b
  | |- wsat (match ?x with _ => _ end) ends => destruct x
  | |- wsat _ ends => solve [auto with ends]
  end.

Ltac ends_tac := repeat ends_step.

Lemma ends_sleep (d : Q) : wsat (sleep d) ends.
Proof. apply ends_emit. Qed.

Lemma ends_utc_now : wsat utc_now ends.
Proof. apply ends_read. Qed.

Lemma ends_datetime_now : wsat datetime_now ends.
Proof. apply ends_read. Qed.

Lemma ends_random_random : wsat random_random ends.
Proof. apply ends_read. Qed.

#[local] Hint Resolve ends_sleep ends_utc_now ends_datetime_now
  ends_random_random : ends.

Lemma ends_recently_used_text (state : State) (t : string) (days : Z) :
  wsat (recently_used_text state t days) ends.
Proof. unfold recently_used_text. ends_tac. Qed.

Lemma ends_recently_used_media (state : State) (m : string) (days : Z) :
  wsat (recently_used_media state m days) ends.
Proof. unfold recently_used_media. ends_tac. Qed.

#[local] Hint Resolve ends_recently_used_text ends_recently_used_media : ends.

Lemma ends_first_not_recent (state : State) (l : list string) :
  wsat (first_not_recent state l) ends.
Proof. induction l; simpl; ends_tac. Qed.

Lemma ends_first_fresh_image (state : State) (l : list string) :
  wsat (first_fresh_image state l) ends.
Proof. induction l; simpl; ends_tac. Qed.

#[local] Hint Resolve ends_first_not_recent ends_first_fresh_image : ends.

Lemma ends_pick_without_recent (state : State) (pool : list string) :
  wsat (pick_without_recent state pool) ends.
Proof. unfold pick_without_recent. ends_tac. Qed.

Lemma ends_list_local_images : wsat list_local_images ends.
Proof. apply ends_read. Qed.

#[local] Hint Resolve ends_pick_without_recent ends_list_local_images : ends.

Lemma ends_pick_fresh_image (state : State) : wsat (pick_fresh_image state) ends.
Proof. unfold pick_fresh_image. ends_tac. Qed.

Lemma ends_build_gm_short : wsat build_gm_short ends.
Proof. unfold build_gm_short. ends_tac. Qed.

Lemma ends_build_gn_short : wsat build_gn_short ends.
Proof. unfold build_gn_short. ends_tac. Qed.

#[local] Hint Resolve ends_pick_fresh_image ends_build_gm_short
  ends_build_gn_short : ends.

Lemma ends_pick_gmgn_text (state : State) (now_local : datetime) (long : bool) :
  wsat (pick_gmgn_text state now_local long) ends.
Proof. unfold pick_gmgn_text. ends_tac. Qed.

Lemma ends_pick_link_short (state : State) : wsat (pick_link_short state) ends.
Proof. unfold pick_link_short. ends_tac. Qed.

Lemma ends_post_status (t : string) (i : option string) :
  wsat (post_status t i) ends.
Proof. unfold post_status. ends_tac. Qed.

Lemma ends_list_notifications (limit : Z) : wsat (list_notifications limit) ends.
Proof. unfold list_notifications. ends_tac. Qed.

Lemma ends_favourite_status (sid : pyid) : wsat (favourite_status sid) ends.
Proof.
  unfold favourite_status. apply ends_with_backoff. ends_tac.
Qed.

Lemma ends_reblog_status (sid : pyid) : wsat (reblog_status sid) ends.
Proof.
  unfold reblog_status. apply ends_with_backoff. ends_tac.
Qed.

Lemma ends_reply_to_status (sid : pyid) (t : string) :
  wsat (reply_to_status sid t) ends.
Proof.
  unfold reply_to_status. apply ends_with_backoff. ends_tac.
Qed.

Lemma ends_timeline_home (limit : Z) : wsat (timeline_home limit) ends.
Proof. unfold timeline_home. ends_tac. Qed.

Lemma ends_account_verify_credentials : wsat account_verify_credentials ends.
Proof. apply ends_remote. Qed.

#[local] Hint Resolve ends_pick_gmgn_text ends_pick_link_short ends_post_status
  ends_list_notifications ends_favourite_status ends_reblog_status
  ends_reply_to_status ends_timeline_home ends_account_verify_credentials
  : ends.

Lemma ends_fetch_unprocessed_mentions (state : State) (limit : Z) :
  wsat (fetch_unprocessed_mentions state limit) ends.
Proof. unfold fetch_unprocessed_mentions. ends_tac. Qed.

Lemma ends_engage_for_notification (n : Notification) :
  wsat (engage_for_notification n) ends.
Proof. unfold engage_for_notification. ends_tac. Qed.

Lemma ends_first_safe_reblog (recent : list string) (tl : list Status) :
  wsat (first_safe_reblog recent tl) ends.
Proof. induction tl; simpl; ends_tac. Qed.

#[local] Hint Resolve ends_fetch_unprocessed_mentions
  ends_engage_for_notification ends_first_safe_reblog : ends.

Lemma ends_pick_safe_reblog (state : State) : wsat (pick_safe_reblog state) ends.
Proof. unfold pick_safe_reblog. ends_tac. Qed.

#[local] Hint Resolve ends_pick_safe_reblog : ends.

(** *** What the random generator and the pickers answer *)

Lemma randbelow_lt (n : nat) :
  wsat (randbelow n)
    (fun o => match o with
              | Ret i => n <> 0%nat -> (i < n)%nat
              | _ => False
              end).
Proof.
  unfold randbelow. apply wsat_bind, wsat_read. intros r.
  apply wsat_ret. intros Hn. now apply Nat.mod_upper_bound.
Qed.

Lemma set_nth_Permutation {A : Type} (i : nat) (v xi : A) (x : list A) :
  nth_error x i = Some xi -> Permutation (v :: x) (xi :: set_nth i v x).
Proof.
  revert i. induction x as [|h t IH]; intros [|i] H; simpl in H;
    try discriminate.
  - injection H as ->. apply perm_swap.
  - cbn [set_nth].
    eapply Permutation_trans; [apply perm_swap|].
    eapply Permutation_trans; [apply perm_skip, (IH i H)|].
    apply perm_swap.
Qed.

Lemma nth_error_set_nth {A : Type} (i j : nat) (v xj : A) (x : list A) :
  (i < List.length x)%nat -> nth_error x j = Some xj ->
  nth_error (set_nth i v x) j = Some (if Nat.eqb i j then v else xj).
Proof.
  revert i j. induction x as [|h t IH]; intros [|i] [|j] Hi Hj; simpl in *;
    try lia; try discriminate; try assumption; try reflexivity.
  apply IH; [lia|assumption].
Qed.

Lemma swap_Permutation {A : Type} (i j : nat) (x : list A) :
  Permutation x (swap i j x).
Proof.
  unfold swap.
  destruct (nth_error x i) as [xi|] eqn:Ei; [|apply Permutation_refl].
  destruct (nth_error x j) as [xj|] eqn:Ej; [|apply Permutation_refl].
  assert (Hi : (i < List.length x)%nat)
    by (apply nth_error_Some; congruence).
  pose proof (@set_nth_Permutation A i xj xi x Ei) as H1.
  assert (E : nth_error (set_nth i xj x) j = Some xj).
  { rewrite (@nth_error_set_nth A i j xj xj x Hi Ej).
    now destruct (Nat.eqb i j). }
  pose proof (@set_nth_Permutation A j xi xj (set_nth i xj x) E) as H2.
  apply Permutation_cons_inv with (a := xj).
  eapply Permutation_trans; [exact H1|exact H2].
Qed.

(** A shuffle answers a permutation of the list. *)
Lemma shuffle_from_Permutation {A : Type} (i : nat) (x : list A) :
  wsat (shuffle_from i x)
    (fun o => match o with
              | Ret x' => Permutation x x'
              | _ => False
              end).
Proof.
  revert x. induction i as [|i IH]; intros x; cbn [shuffle_from].
  - apply wsat_ret. apply Permutation_refl.
  - apply wsat_bind. eapply wsat_conseq; [apply randbelow_lt|].
    intros [j| |]; try tauto. intros _.
    eapply wsat_conseq; [apply (IH (swap (S i) j x))|].
    intros [x'| |]; try tauto. intros H.
    eapply Permutation_trans; [apply swap_Permutation|exact H].
Qed.

Lemma random_shuffle_Permutation {A : Type} (l : list A) :
  wsat (random_shuffle l)
    (fun o => match o with
              | Ret l' => Permutation l l'
              | _ => False
              end).
Proof. apply shuffle_from_Permutation. Qed.

Lemma random_choice_In {A : Type} (seq : list A) :
  wsat (random_choice seq)
    (fun o => match o with
              | Ret x => In x seq
              | Raise _ => seq = []
              | Hang => False
              end).
Proof.
  destruct seq as [|x l]; [now apply wsat_raise|].
  cbn [random_choice]. apply wsat_bind.
  eapply wsat_conseq; [apply randbelow_lt|].
  intros [i| |]; try tauto. intros Hi. apply wsat_ret.
  apply nth_In. apply Hi. discriminate.
Qed.

Lemma succeeds_random_uniform (a b : Z) : wsat (random_uniform a b) succeeds.
Proof.
  unfold random_uniform. apply wsat_bind, wsat_read. intros r.
  now apply wsat_ret.
Qed.

Lemma succeeds_sleep (d : Q) : wsat (sleep d) succeeds.
Proof. now apply wsat_emit. Qed.

Lemma succeeds_utc_now : wsat utc_now succeeds.
Proof. now apply wsat_read. Qed.

(** The mentions that [fetch_unprocessed_mentions] answers have an
    identifier that is not in the processed list. *)
Lemma fetch_unprocessed_mentions_fresh (state : State) (limit : Z) :
  wsat (fetch_unprocessed_mentions state limit)
    (fun o =>
       match o with
       | Ret fresh =>
           Forall
             (fun n =>
                nonempty (str (n_id n)) = true
                /\ mem (str (n_id n)) (processed_notifications state) = false)
             fresh
       | Raise _ => True
       | Hang => False
       end).
Proof.
  unfold fetch_unprocessed_mentions. apply wsat_bind.
  eapply wsat_conseq; [apply ends_list_notifications|].
  intros [items|e|] Ho; [|exact I|now elim Ho].
  apply wsat_ret. apply Forall_forall. intros n Hn.
  apply filter_In in Hn. destruct Hn as [_ Hn].
  destruct (negb (n_type n =? "mention")%string); [discriminate|].
  destruct (nonempty (str (n_id n))); simpl in Hn; [|discriminate].
  destruct (mem (str (n_id n)) (processed_notifications state));
    [discriminate|]. now split.
Qed.

Lemma first_safe_reblog_safe (recent : list string) (tl : list Status) :
  wsat (first_safe_reblog recent tl) (safe_reblog recent).
Proof.
  induction tl as [|item rest IH]; cbn [first_safe_reblog].
  - apply wsat_ret. simpl. discriminate.
  - apply wsat_bind. apply wsat_try_except.
    eapply wsat_conseq; [apply ends_account_verify_credentials|].
    intros [my_id|e|] Ho; [|apply wsat_ret|now elim Ho].
    + destruct (truthy my_id && pyid_eqb (s_account item) my_id);
        [exact IH|].
      destruct (truthy (s_id item)) eqn:Et; simpl; [|exact IH].
      destruct (mem (str (s_id item)) recent) eqn:Em; [exact IH|].
      destruct (s_is_reblog item); [exact IH|].
      apply wsat_ret. simpl. intros _. exact Em.
    + destruct (truthy IdNone && pyid_eqb (s_account item) IdNone);
        [exact IH|].
      destruct (truthy (s_id item)) eqn:Et; simpl; [|exact IH].
      destruct (mem (str (s_id item)) recent) eqn:Em; [exact IH|].
      destruct (s_is_reblog item); [exact IH|].
      apply wsat_ret. simpl. intros _. exact Em.
Qed.

Lemma pick_safe_reblog_safe (state : State) :
  wsat (pick_safe_reblog state) (safe_reblog (recent_reblogs state)).
Proof.
  unfold pick_safe_reblog. apply wsat_bind.
  eapply wsat_conseq; [apply ends_timeline_home|].
  intros [tl|e|] Ho; [|exact I|now elim Ho].
  apply wsat_bind.
  eapply wsat_conseq; [apply ends_random_shuffle|].
  intros [tl'|e|] Ho'; [|exact I|now elim Ho'].
  apply first_safe_reblog_safe.
Qed.

(** ** What a cycle does to the state *)

Lemma sat_conseq {A : Type} (m : SM A) (s : State)
    (Q Q' : outcome A -> State -> Prop) :
  sat m s Q -> (forall o s', Q o s' -> Q' o s') -> sat m s Q'.
Proof. intros H HQ w. apply HQ, H. Qed.

Lemma sat_ret {A : Type} (a : A) (s : State) (Q : outcome A -> State -> Prop) :
  Q (Ret a) s -> sat (sm_ret a) s Q.
Proof. intros H w. exact H. Qed.

Lemma sat_bind {A B : Type} (m : SM A) (k : A -> SM B) (s : State)
    (Q : outcome B -> State -> Prop) :
  sat m s (fun o s' =>
             match o with
             | Ret a => sat (k a) s' Q
             | Raise e => Q (Raise e) s'
             | Hang => Q Hang s'
             end) ->
  sat (sm_bind m k) s Q.
Proof.
  intros H w. unfold sm_bind. specialize (H w).
  destruct (m s w) as [[[a|e|] s'] w']; simpl in *; auto.
Qed.

Lemma sat_try {A : Type} (m : SM A) (h : exn -> SM A) (s : State)
    (Q : outcome A -> State -> Prop) :
  sat m s (fun o s' =>
             match o with
             | Raise e => sat (h e) s' Q
             | _ => Q o s'
             end) ->
  sat (sm_try m h) s Q.
Proof.
  intros H w. unfold sm_try. specialize (H w).
  destruct (m s w) as [[[a|e|] s'] w']; simpl in *; auto.
Qed.

Lemma sat_lift {A : Type} (m : State -> W A) (s : State)
    (R : outcome A -> Prop) (Q : outcome A -> State -> Prop) :
  wsat (m s) R -> (forall o, R o -> Q o s) -> sat (lift m) s Q.
Proof.
  intros H HQ w. unfold lift. specialize (H w).
  destruct (m s w) as [o w']. simpl in *. now apply HQ.
Qed.

Lemma sat_update (f : State -> State) (s : State)
    (Q : outcome unit -> State -> Prop) :
  Q (Ret tt) (f s) -> sat (update f) s Q.
Proof. intros H w. exact H. Qed.

Lemma sat_get_state (s : State) (Q : outcome State -> State -> Prop) :
  Q (Ret s) s -> sat get_state s Q.
Proof. intros H w. exact H. Qed.

Lemma sat_save_state (s : State) (Q : outcome unit -> State -> Prop) :
  Q (Ret tt) s -> sat save_state s Q.
Proof. intros H w. exact H. Qed.

Lemma sat_nap (lo hi : Z) (s : State) (Q : outcome unit -> State -> Prop) :
  Q (Ret tt) s -> sat (nap lo hi) s Q.
Proof.
  intros H. unfold nap.
  apply sat_lift with (R := fun o => o = Ret tt).
  - apply wsat_bind.
    eapply wsat_conseq; [apply succeeds_random_uniform|].
    intros [d|e|] Ho; [|now elim Ho|now elim Ho].
    intros w. reflexivity.
  - intros o ->. exact H.
Qed.

Section Cycle.

Variable now_local : datetime.
Variable s0 : State.
Hypothesis can_post_s0 : can_post s0 = true.
Hypothesis not_quiet : is_quiet_hours now_local = false.

Lemma try_reblog_effect (sid : pyid) :
  (truthy sid = true -> mem (str sid) (recent_reblogs s0) = false) ->
  sat (try_reblog sid) s0
    (fun o s' =>
       match o with
       | Ret (Some r) => cycle_effect now_local s0 (Ret r) s'
       | Ret None => s' = s0
       | _ => False
       end).
Proof.
  intros Hsid. unfold try_reblog.
  destruct (truthy sid); [|now apply sat_ret].
  apply sat_try, sat_bind.
  eapply sat_lift; [apply ends_reblog_status|].
  intros [b|e|] Ho; [|now apply sat_ret|now elim Ho].
  apply sat_bind, sat_update, sat_bind, sat_save_state, sat_bind, sat_nap,
    sat_ret.
  apply effect_reblogged; auto.
Qed.

Lemma fallback_under_cap (pt : PerType) :
  (pertype_get pt post_short_link <? MAX_SHORT_LINK_PER_DAY) = true ->
  under_cap pt post_short_link.
Proof. intros H. apply Z.ltb_lt in H. exact H. Qed.

Lemma fallback_long_under_cap (pt : PerType) :
  (pertype_get pt post_gmgn_long <? MAX_GMGN_LONG_PER_DAY) = true ->
  under_cap pt post_gmgn_long.
Proof. intros H. apply Z.ltb_lt in H. exact H. Qed.

Lemma reblog_first_effect :
  sat (reblog_first (pertype s0)) s0
    (fun o s' =>
       match o with
       | Ret (inl r) => cycle_effect now_local s0 (Ret r) s'
       | Ret (inr a) => s' = s0 /\ under_cap (pertype s0) a
       | Raise _ => s' = s0
       | Hang => False
       end).
Proof.
  unfold reblog_first. apply sat_bind.
  eapply sat_lift; [apply pick_safe_reblog_safe|].
  intros [sid|e|] Ho; [|reflexivity|exact Ho].
  apply sat_bind.
  eapply sat_conseq; [apply (try_reblog_effect sid Ho)|].
  intros [[r|]|e|] s' H; try contradiction.
  - now apply sat_ret.
  - subst s'.
    destruct (pertype_get (pertype s0) post_short_link
              <? MAX_SHORT_LINK_PER_DAY) eqn:E1.
    { apply sat_ret. split; [reflexivity|]. now apply fallback_under_cap. }
    destruct (pertype_get (pertype s0) post_gmgn_long
              <? MAX_GMGN_LONG_PER_DAY) eqn:E2.
    { apply sat_ret. split; [reflexivity|].
      now apply fallback_long_under_cap. }
    apply sat_ret. constructor.
Qed.

Lemma reblog_last_effect : sat reblog_last s0 (cycle_effect now_local s0).
Proof.
  unfold reblog_last. apply sat_bind.
  eapply sat_lift; [apply pick_safe_reblog_safe|].
  intros [sid|e|] Ho; [|constructor|contradiction].
  apply sat_bind.
  eapply sat_conseq; [apply (try_reblog_effect sid Ho)|].
  intros [[r|]|e|] s' H; try contradiction.
  - now apply sat_ret.
  - subst s'. apply sat_ret. constructor.
Qed.

Lemma downgrade_from_under_cap (pt : PerType) (a : Action) :
  downgrade_from pt a = reblog \/ under_cap pt (downgrade_from pt a).
Proof.
  destruct a; simpl;
    repeat match goal with
           | |- context [?x <? ?y] =>
               let E := fresh "E" in
               destruct (x <? y) eqn:E; [apply Z.ltb_lt in E|]
           end; simpl; auto.
Qed.

Lemma choose_action_under_cap (pt : PerType) :
  choose_action_with_caps now_local pt = reblog
  \/ under_cap pt (choose_action_with_caps now_local pt).
Proof.
  unfold choose_action_with_caps.
  repeat match goal with
         | |- context [if ?b then _ else _] =>
             let E := fresh "E" in destruct b eqn:E
         end; simpl; auto; right;
    repeat match goal with
           | H : (_ && _) = true |- _ => apply andb_prop in H; destruct H
           | H : (_ <? _) = true |- _ => apply Z.ltb_lt in H
           end; assumption.
Qed.

Lemma prepare_img_effect (l : Locals) :
  locals_ok s0 l ->
  sat (prepare_img now_local (pertype s0) l) s0 (block_post s0 (locals_ok s0)).
Proof.
  intros Hl. unfold prepare_img.
  destruct (action l) eqn:Ea; try (apply sat_ret; now split).
  apply sat_bind.
  eapply sat_lift; [apply ends_pick_gmgn_text|].
  intros [t|e|] Ho; [|reflexivity|now elim Ho].
  apply sat_bind.
  eapply sat_lift; [apply ends_pick_fresh_image|].
  intros [[img|]|e|] Ho'; [| |reflexivity|now elim Ho'].
  - apply sat_ret. split; [reflexivity|]. unfold locals_ok in *.
    cbn [action]. rewrite Ea in Hl. exact Hl.
  - apply sat_ret. split; [reflexivity|]. unfold locals_ok.
    cbn [action]. apply downgrade_from_under_cap.
Qed.

Lemma pick_gmgn_text_long_ok (state : State) :
  wsat (pick_gmgn_text state now_local true)
    (fun o =>
       match o with
       | Ret t => long_text_ok now_local post_gmgn_long t
       | Raise _ => True
       | Hang => False
       end).
Proof.
  intros w.
  pose proof (ends_pick_gmgn_text state now_local true w) as Hends.
  destruct (fst (pick_gmgn_text state now_local true w)) as [t|e|] eqn:E;
    [|exact I|now elim Hends].
  intros _ Hm He. unfold pick_gmgn_text in E. rewrite Hm, He in E.
  unfold build_gm_short in E.
  pose proof (random_choice_In GM_SHORT w) as H. rewrite E in H. exact H.
Qed.

Lemma prepare_long_effect (l : Locals) :
  locals_ok s0 l ->
  sat (prepare_long now_local (pertype s0) l) s0
    (block_post s0 (fun l' => locals_ok s0 l' /\ long_ready now_local l')).
Proof.
  intros Hl. unfold prepare_long.
  destruct (action l) eqn:Ea;
    try (apply sat_ret; split; [reflexivity|split; [assumption|]];
         unfold long_ready; rewrite Ea; discriminate).
  destruct Hl as [Hl|Hl]; [congruence|]. rewrite Ea in Hl.
  pose proof Hl as Hl'. unfold under_cap in Hl'.
  destruct (MAX_GMGN_LONG_PER_DAY <=? pertype_get (pertype s0) post_gmgn_long)
    eqn:E; [apply Z.leb_le in E; lia|].
  apply sat_bind.
  eapply sat_lift; [apply pick_gmgn_text_long_ok|].
  intros [t|e|] Ho; [|reflexivity|exact Ho].
  apply sat_bind.
  eapply sat_lift; [apply ends_random_random|].
  intros [r|e|] Hr; [|reflexivity|now elim Hr].
  assert (Hok : forall img,
             locals_ok s0 (mkLocals post_gmgn_long (Some t) img)
             /\ long_ready now_local (mkLocals post_gmgn_long (Some t) img)).
  { intros img. split.
    - right. exact Hl.
    - intros _. exists t. now split. }
  destruct (Qltb r (30 # 100)).
  - apply sat_bind.
    eapply sat_lift; [apply ends_pick_fresh_image|].
    intros [img|e|] Hi; [|reflexivity|now elim Hi].
    apply sat_ret. split; [reflexivity|]. apply Hok.
  - apply sat_ret. split; [reflexivity|]. apply Hok.
Qed.

Lemma prepare_link_effect (l : Locals) :
  locals_ok s0 l -> long_ready now_local l ->
  sat (prepare_link (pertype s0) l) s0
    (block_post s0 (fun l' => locals_ok s0 l' /\ long_ready now_local l')).
Proof.
  intros Hl Hr. unfold prepare_link.
  destruct (action l) eqn:Ea;
    try (apply sat_ret; split; [reflexivity|split; [assumption|]];
         unfold long_ready; rewrite Ea; try discriminate;
         intros _; destruct (Hr Ea) as [t Ht]; exists t;
         now rewrite <- Ea).
  destruct Hl as [Hl|Hl]; [congruence|]. rewrite Ea in Hl.
  pose proof Hl as Hl'. unfold under_cap in Hl'.
  destruct (MAX_SHORT_LINK_PER_DAY <=? pertype_get (pertype s0) post_short_link)
    eqn:E; [apply Z.leb_le in E; lia|].
  apply sat_bind.
  eapply sat_lift; [apply ends_pick_link_short|].
  intros [t|e|] Ho; [|reflexivity|now elim Ho].
  apply sat_ret. split; [reflexivity|]. split.
  - right. exact Hl.
  - intros H. discriminate H.
Qed.

Lemma publish_effect (l : Locals) :
  under_cap (pertype s0) (action l) -> long_ready now_local l ->
  sat (publish l) s0 (cycle_effect now_local s0).
Proof.
  intros Hl Hr. unfold publish.
  destruct (text_ l) as [t|] eqn:Et; [|apply sat_ret; constructor].
  destruct (negb (nonempty t)); [apply sat_ret; constructor|].
  apply sat_bind, sat_try, sat_bind.
  eapply sat_lift; [apply ends_post_status|].
  intros [sid|e|] Ho; [| |now elim Ho].
  - apply sat_ret.
    destruct (truthy sid); [|apply sat_ret; now constructor].
    unfold remember_post.
    apply sat_bind, sat_bind.
    eapply sat_lift; [apply succeeds_utc_now|].
    intros [now|e|] Hn; try contradiction.
    apply sat_update, sat_bind, sat_update, sat_bind, sat_save_state,
      sat_bind, sat_nap, sat_ret.
    apply effect_posted; auto.
    intros Ha. destruct (Hr Ha) as [t' [Ht' Hok]].
    assert (t' = t) by congruence. subst t'. now apply Hok.
  - apply sat_ret, sat_ret. now constructor.
Qed.

Lemma post_step_effect : sat (post_step now_local) s0 (cycle_effect now_local s0).
Proof.
  unfold post_step. apply sat_bind, sat_get_state.
  set (action0 := choose_action_with_caps now_local (pertype s0)).
  assert (H0 : action0 = reblog \/ under_cap (pertype s0) action0)
    by apply choose_action_under_cap.
  apply sat_bind.
  apply sat_conseq with
    (Q := fun o s' =>
            match o with
            | Ret (inl r) => cycle_effect now_local s0 (Ret r) s'
            | Ret (inr a) => s' = s0 /\ under_cap (pertype s0) a
            | Raise _ => s' = s0
            | Hang => False
            end).
  { destruct (Action_eqb action0 reblog) eqn:E.
    - apply reblog_first_effect.
    - apply sat_ret. split; [reflexivity|].
      destruct H0 as [H0|H0]; [|exact H0].
      rewrite H0 in E. discriminate. }
  intros [[r|a]|e|] s' H; try contradiction.
  - now apply sat_ret.
  - destruct H as [-> Ha].
    apply sat_bind.
    eapply sat_conseq;
      [apply (@prepare_img_effect (mkLocals a None None)); now right|].
    intros [l1|e|] s' H1; [|cbn in H1; subst s'; constructor|contradiction].
    destruct H1 as [-> Hl1].
    apply sat_bind.
    eapply sat_conseq; [apply (@prepare_long_effect l1 Hl1)|].
    intros [l2|e|] s' H2; [|cbn in H2; subst s'; constructor|contradiction].
    destruct H2 as [-> [Hl2 Hr2]].
    apply sat_bind.
    eapply sat_conseq; [apply (@prepare_link_effect l2 Hl2 Hr2)|].
    intros [l3|e|] s' H3; [|cbn in H3; subst s'; constructor|contradiction].
    destruct H3 as [-> [Hl3 Hr3]].
    destruct (Action_eqb (action l3) reblog) eqn:E.
    + apply reblog_last_effect.
    + apply publish_effect; [|exact Hr3].
      destruct Hl3 as [Hl3|Hl3]; [|exact Hl3].
      rewrite Hl3 in E. discriminate.
  - subst s'. constructor.
Qed.

End Cycle.

Lemma engage_step_effect (now_local : datetime) (s0 : State) :
  sat engage_step s0
    (fun o s' =>
       match o with
       | Ret (Some r) => cycle_effect now_local s0 (Ret r) s'
       | Ret None => s' = s0
       | Raise _ => s' = s0
       | Hang => False
       end).
Proof.
  unfold engage_step. apply sat_bind, sat_get_state.
  destruct (can_engage s0) eqn:Hcan; [|now apply sat_ret].
  apply sat_bind.
  eapply sat_lift; [apply fetch_unprocessed_mentions_fresh|].
  intros [fresh|e|] Hfresh; [|reflexivity|exact Hfresh].
  apply sat_bind.
  eapply sat_lift; [apply (random_shuffle_Permutation fresh)|].
  intros [[|n shuffled]|e|] Hperm; try contradiction; [now apply sat_ret|].
  assert (Hn : In n fresh).
  { apply Permutation_sym in Hperm.
    apply (Permutation_in _ Hperm). now left. }
  rewrite Forall_forall in Hfresh. destruct (Hfresh n Hn) as [Hid Hnew].
  apply sat_bind.
  eapply sat_lift; [apply ends_engage_for_notification|].
  intros [[k|]|e|] Ho; [| |reflexivity|now elim Ho]; [|now apply sat_ret].
  destruct (nonempty k); [|now apply sat_ret].
  apply sat_bind, sat_update, sat_bind, sat_save_state, sat_bind, sat_nap,
    sat_ret.
  now apply effect_engaged.
Qed.

Lemma do_one_action_at_effect (now_local : datetime) (s : State) :
  sat (do_one_action_at now_local) s
    (cycle_effect now_local (after_resets s now_local)).
Proof.
  unfold do_one_action_at.
  apply sat_bind, sat_update, sat_bind, sat_update.
  fold (after_resets s now_local). set (s0 := after_resets s now_local).
  apply sat_bind.
  eapply sat_conseq; [apply (engage_step_effect now_local s0)|].
  intros [[r|]|e|] s' H; try contradiction.
  - now apply sat_ret.
  - subst s'. apply sat_bind, sat_get_state.
    destruct (can_post s0) eqn:Hp; simpl; [|apply sat_ret; constructor].
    destruct (is_quiet_hours now_local) eqn:Hq; simpl;
      [apply sat_ret; constructor|].
    now apply post_step_effect.
  - subst s'. constructor.
Qed.

(** Every cycle ends in one of the ways of [cycle_effect]; in particular
    it ends. *)
Lemma do_one_action_effect (s : State) (w : World) :
  cycle_effect (cycle_time w) (after_resets s (cycle_time w))
    (fst (fst (do_one_action s w))) (snd (fst (do_one_action s w))).
Proof.
  unfold do_one_action, sm_bind, lift, datetime_now, read, cycle_time.
  destruct (next (clock_local w)) as [now t]. simpl.
  apply do_one_action_at_effect.
Qed.

(** ** Invariants of the state *)

Lemma can_post_lt (s : State) :
  can_post s = true ->
  d_posts (daily s) < MAX_POSTS_PER_DAY
  /\ h_posts (hourly s) < MAX_POSTS_PER_HOUR.
Proof.
  unfold can_post. intros H. apply andb_prop in H.
  destruct H as [H1 H2]. apply Z.ltb_lt in H1, H2. now split.
Qed.

Lemma can_engage_lt (s : State) :
  can_engage s = true ->
  d_engagements (daily s) < MAX_ENGAGEMENTS_PER_DAY
  /\ h_engagements (hourly s) < MAX_ENGAGEMENTS_PER_HOUR.
Proof.
  unfold can_engage. intros H. apply andb_prop in H.
  destruct H as [H1 H2]. apply Z.ltb_lt in H1, H2. now split.
Qed.

Lemma after_resets_rate_caps (s : State) (now_local : datetime) :
  within_rate_caps s -> within_rate_caps (after_resets s now_local).
Proof.
  unfold within_rate_caps, after_resets, reset_hourly_if_needed,
    reset_daily_if_needed.
  intros H.
  destruct (negb (d_date (daily s) =? date_isoformat now_local)%string);
    cbv zeta;
    match goal with
    | |- context [if ?b then _ else _] => destruct b
    end; simpl; unfold MAX_POSTS_PER_DAY, MAX_ENGAGEMENTS_PER_DAY,
      MAX_POSTS_PER_HOUR, MAX_ENGAGEMENTS_PER_HOUR in *; lia.
Qed.

Lemma after_resets_type_caps (s : State) (now_local : datetime) :
  within_type_caps s -> within_type_caps (after_resets s now_local).
Proof.
  unfold within_type_caps, after_resets, reset_hourly_if_needed,
    reset_daily_if_needed.
  intros H.
  destruct (negb (d_date (daily s) =? date_isoformat now_local)%string);
    cbv zeta;
    match goal with
    | |- context [if ?b then _ else _] => destruct b
    end; simpl; unfold MAX_IMG_GMGN_PER_DAY, MAX_SHORT_LINK_PER_DAY,
      MAX_GMGN_LONG_PER_DAY in *; simpl in H; lia.
Qed.

Lemma after_resets_processed (s : State) (now_local : datetime) :
  processed_notifications (after_resets s now_local)
  = processed_notifications s.
Proof.
  unfold after_resets, reset_hourly_if_needed, reset_daily_if_needed.
  destruct (negb (d_date (daily s) =? date_isoformat now_local)%string);
    cbv zeta;
    match goal with
    | |- context [if ?b then _ else _] => destruct b
    end; reflexivity.
Qed.

Lemma after_resets_no_duplicates (s : State) (now_local : datetime) :
  no_duplicates s -> no_duplicates (after_resets s now_local).
Proof.
  unfold no_duplicates. rewrite after_resets_processed.
  intros [H1 H2]. split; [exact H1|].
  unfold after_resets, reset_hourly_if_needed, reset_daily_if_needed.
  destruct (negb (d_date (daily s) =? date_isoformat now_local)%string);
    cbv zeta;
    match goal with
    | |- context [if ?b then _ else _] => destruct b
    end; simpl; auto using last_n_NoDup.
Qed.

Lemma cycle_effect_rate_caps (now_local : datetime) (s0 : State)
    (o : outcome Result) (s' : State) :
  cycle_effect now_local s0 o s' ->
  within_rate_caps s0 -> within_rate_caps s'.
Proof.
  intros H Hs. unfold within_rate_caps in *.
  destruct H as [nid Hc _ _|sid Hc _ _|a t img at_ Hc _ _ _|_| |e]; auto.
  - apply can_engage_lt in Hc. unfold record_engagement.
    destruct (nonempty nid); simpl; lia.
  - apply can_post_lt in Hc. simpl. lia.
  - apply can_post_lt in Hc. simpl. lia.
Qed.

Lemma cycle_effect_type_caps (now_local : datetime) (s0 : State)
    (o : outcome Result) (s' : State) :
  cycle_effect now_local s0 o s' ->
  within_type_caps s0 -> within_type_caps s'.
Proof.
  intros H Hs. unfold within_type_caps in *.
  destruct H as [nid _ _ _|sid _ _ _|a t img at_ _ _ Ha _|_| |e]; auto.
  - unfold record_engagement. destruct (nonempty nid); simpl; exact Hs.
  - destruct a; simpl in *; try contradiction; lia.
Qed.

Lemma cycle_effect_no_duplicates (now_local : datetime) (s0 : State)
    (o : outcome Result) (s' : State) :
  cycle_effect now_local s0 o s' ->
  no_duplicates s0 -> no_duplicates s'.
Proof.
  intros H [H1 H2]. unfold no_duplicates.
  destruct H as [nid _ _ Hn|sid _ _ Hn|a t img at_ _ _ _ _|_| |e]; auto.
  - apply mem_false in Hn. unfold record_engagement.
    destruct (nonempty nid); simpl; split; auto.
    apply last_n_NoDup. now apply NoDup_snoc.
  - apply mem_false in Hn. simpl. split; auto.
    apply last_n_NoDup. now apply NoDup_snoc.
Qed.

(** An invariant of the resets and of every ending of a cycle holds of
    every reachable state. *)
Lemma reachable_ind_effect (P : State -> Prop) :
  P fresh_state ->
  (forall s now_local, P s -> P (after_resets s now_local)) ->
  (forall now_local s0 o s',
      cycle_effect now_local s0 o s' -> P s0 -> P s') ->
  forall s, reachable s -> P s.
Proof.
  intros Hf Hr Hc s H. induction H as [|s w _ IH]; [exact Hf|].
  eapply Hc; [apply do_one_action_effect|]. now apply Hr.
Qed.

(** ** The selector in the morning (C6) *)

(** C6: in the morning window, for every per-type counter state, the
    selector answers the image greeting exactly when its count is 0,
    otherwise the short link if under its cap of 2, otherwise the long
    greeting if under its cap of 1, otherwise the reblog; at 08:00 with
    two image greetings and no short link it answers the short link. *)
Theorem morning_selector (now_local : datetime) (pt : PerType) :
  7 <= hour now_local < 11 ->
  choose_action_with_caps now_local pt
  = (if pertype_get pt post_img_gmgn_short =? 0 then post_img_gmgn_short
     else if pertype_get pt post_short_link <? 2 then post_short_link
     else if pertype_get pt post_gmgn_long <? 1 then post_gmgn_long
     else reblog)
  /\ (choose_action_with_caps now_local pt = post_img_gmgn_short
      <-> pertype_get pt post_img_gmgn_short = 0)
  /\ (forall long_count reblog_count,
         choose_action_with_caps (DateTime (year now_local) (month now_local)
                                    (day now_local) 8)
           (mkPerType 2 long_count 0 reblog_count)
         = post_short_link).
Proof.
  intros [H7 H11].
  assert (E : choose_action_with_caps now_local pt
              = (if pertype_get pt post_img_gmgn_short =? 0
                 then post_img_gmgn_short
                 else if pertype_get pt post_short_link <? 2
                 then post_short_link
                 else if pertype_get pt post_gmgn_long <? 1
                 then post_gmgn_long
                 else reblog)).
  { unfold choose_action_with_caps.
    apply Z.leb_le in H7. apply Z.ltb_lt in H11. rewrite H7, H11.
    cbn [andb]. unfold MAX_IMG_GMGN_PER_DAY, MAX_SHORT_LINK_PER_DAY,
      MAX_GMGN_LONG_PER_DAY.
    destruct (pertype_get pt post_img_gmgn_short =? 0) eqn:E0.
    - apply Z.eqb_eq in E0. rewrite E0. reflexivity.
    - rewrite andb_false_r. reflexivity. }
  split; [exact E|]. split; [|reflexivity].
  rewrite E.
  destruct (pertype_get pt post_img_gmgn_short =? 0) eqn:E0.
  - apply Z.eqb_eq in E0. tauto.
  - apply Z.eqb_neq in E0.
    destruct (pertype_get pt post_short_link <? 2);
      [|destruct (pertype_get pt post_gmgn_long <? 1)];
      split; intros H; try discriminate H; contradiction.
Qed.

Lemma morning_selector_witness :
  7 <= hour eight_am < 11
  /\ choose_action_with_caps eight_am (mkPerType 2 0 0 0) = post_short_link.
Proof.
  split; [simpl; lia|].
  destruct (@morning_selector eight_am (mkPerType 2 0 0 0)) as [E _];
    [simpl; lia|].
  rewrite E. reflexivity.
Defined.

(** ** The daily reset (C8) *)

(** C8: for every state and every instant, resetting the day twice with
    the same [now] gives the state that resetting once gives; the list of
    recent reblogs, cut to its last 200 entries by the first call, is left
    as it is by the second. *)
Theorem reset_daily_idempotent (state : State) (now_local : datetime) :
  reset_daily_if_needed (reset_daily_if_needed state now_local) now_local
  = reset_daily_if_needed state now_local
  /\ recent_reblogs
       (reset_daily_if_needed (reset_daily_if_needed state now_local)
          now_local)
     = (if (d_date (daily state) =? date_isoformat now_local)%string
        then recent_reblogs state
        else last_n 200 (recent_reblogs state)).
Proof.
  unfold reset_daily_if_needed.
  destruct (d_date (daily state) =? date_isoformat now_local)%string eqn:E;
    cbn [negb].
  - rewrite E. cbn [negb]. now split.
  - cbn [daily set_pertype set_recent_reblogs set_daily d_date].
    rewrite String.eqb_refl. cbn [negb]. now split.
Qed.

(** ** Caps (C2, C4) *)

(** C2: in every reachable state, whatever the sequence of cycles that
    led to it, the daily counters are at most 4 posts and 10 engagements
    and the hourly counters at most 2 posts and 3 engagements. *)
Theorem rate_caps_never_exceeded (s : State) :
  reachable s ->
  d_posts (daily s) <= 4 /\ d_engagements (daily s) <= 10
  /\ h_posts (hourly s) <= 2 /\ h_engagements (hourly s) <= 3.
Proof.
  intros H. change (within_rate_caps s). revert s H.
  apply reachable_ind_effect.
  - unfold within_rate_caps. simpl. repeat split; discriminate.
  - intros s now_local. apply after_resets_rate_caps.
  - intros now_local s0 o s'. apply cycle_effect_rate_caps.
Qed.

Lemma rate_caps_never_exceeded_witness :
  let s := snd (fst (do_one_action fresh_state favourite_works_world)) in
  reachable s
  /\ d_posts (daily s) <= 4 /\ d_engagements (daily s) <= 10
  /\ h_posts (hourly s) <= 2 /\ h_engagements (hourly s) <= 3.
Proof.
  assert (H : reachable
                (snd (fst (do_one_action fresh_state favourite_works_world))))
    by (apply reachable_cycle, reachable_fresh).
  split; [exact H|]. exact (rate_caps_never_exceeded H).
Defined.

Lemma choose_action_ignores_reblog (now_local : datetime) (pt : PerType)
    (v : Z) :
  choose_action_with_caps now_local (pertype_set pt reblog v)
  = choose_action_with_caps now_local pt.
Proof. reflexivity. Qed.

Lemma downgrade_from_ignores_reblog (pt : PerType) (a : Action) (v : Z) :
  downgrade_from (pertype_set pt reblog v) a = downgrade_from pt a.
Proof. destruct a; reflexivity. Qed.

(** C4: in every reachable state the image greetings are at most 2, the
    short links at most 2 and the long greetings at most 1; the count of
    reblogs is compared to no cap: neither the selector nor the downgrade
    chain reads it. *)
Theorem type_caps_never_exceeded (s : State) :
  reachable s ->
  (pertype_get (pertype s) post_img_gmgn_short <= 2
   /\ pertype_get (pertype s) post_short_link <= 2
   /\ pertype_get (pertype s) post_gmgn_long <= 1)
  /\ (forall now_local v,
         choose_action_with_caps now_local (pertype_set (pertype s) reblog v)
         = choose_action_with_caps now_local (pertype s))
  /\ (forall a v,
         downgrade_from (pertype_set (pertype s) reblog v) a
         = downgrade_from (pertype s) a).
Proof.
  intros H. split.
  - change (within_type_caps s). revert s H.
    apply reachable_ind_effect.
    + unfold within_type_caps. simpl. repeat split; discriminate.
    + intros s now_local. apply after_resets_type_caps.
    + intros now_local s0 o s'. apply cycle_effect_type_caps.
  - split.
    + intros. apply choose_action_ignores_reblog.
    + intros. apply downgrade_from_ignores_reblog.
Qed.

Lemma type_caps_never_exceeded_witness :
  let s := snd (fst (do_one_action fresh_state (calm_world eight_am))) in
  reachable s
  /\ pertype_get (pertype s) post_img_gmgn_short <= 2
  /\ pertype_get (pertype s) post_short_link <= 2
  /\ pertype_get (pertype s) post_gmgn_long <= 1.
Proof.
  assert (H : reachable
                (snd (fst (do_one_action fresh_state (calm_world eight_am)))))
    by (apply reachable_cycle, reachable_fresh).
  split; [exact H|]. exact (proj1 (type_caps_never_exceeded H)).
Defined.

(** ** Quiet hours (C3) *)

Lemma is_quiet_hours_default (now_local : datetime) :
  is_quiet_hours now_local = true
  <-> 23 <= hour now_local \/ hour now_local < 7.
Proof.
  unfold is_quiet_hours, NO_POST_START_HOUR, NO_POST_END_HOUR.
  cbn [Z.leb Z.compare Pos.compare Pos.compare_cont].
  rewrite orb_true_iff, Z.leb_le, Z.ltb_lt. reflexivity.
Qed.

(** C3: a cycle whose local time is in the quiet hours (from 23:00 on, or
    before 07:00) never answers [posted] nor [reblogged]: it engages,
    skips, or lets an error of the server through. *)
Theorem quiet_hours_no_post (s : State) (w : World) :
  is_quiet_hours (cycle_time w) = true ->
  (23 <= hour (cycle_time w) \/ hour (cycle_time w) < 7)
  /\ fst (fst (do_one_action s w)) <> Ret posted
  /\ fst (fst (do_one_action s w)) <> Ret reblogged
  /\ (fst (fst (do_one_action s w)) = Ret engaged
      \/ fst (fst (do_one_action s w)) = Ret skip
      \/ exists e, fst (fst (do_one_action s w)) = Raise e).
Proof.
  intros Hq. split; [now apply is_quiet_hours_default|].
  pose proof (do_one_action_effect s w) as H.
  destruct H as [nid _ _ _|sid _ Hn _|a t img at_ _ Hn _ _|Hn| |e];
    try congruence.
  - repeat split; try discriminate. now left.
  - repeat split; try discriminate. right. now left.
  - repeat split; try discriminate. right. right. now exists e.
Qed.

Lemma quiet_hours_no_post_witness :
  is_quiet_hours (cycle_time (calm_world two_am)) = true
  /\ fst (fst (do_one_action fresh_state (calm_world two_am))) <> Ret posted.
Proof.
  split; [reflexivity|].
  exact (proj1 (proj2 (@quiet_hours_no_post fresh_state (calm_world two_am)
                         eq_refl))).
Defined.

(** ** No duplicates (C9) *)

Lemma after_resets_recent_reblogs (s : State) (now_local : datetime) :
  recent_reblogs (after_resets s now_local) = recent_reblogs s
  \/ recent_reblogs (after_resets s now_local)
     = last_n 200 (recent_reblogs s).
Proof.
  unfold after_resets, reset_hourly_if_needed, reset_daily_if_needed.
  destruct (negb (d_date (daily s) =? date_isoformat now_local)%string);
    cbv zeta;
    match goal with
    | |- context [if ?b then _ else _] => destruct b
    end; simpl; auto.
Qed.

(** What a cycle does to the two lists: it leaves them as the resets left
    them, or appends one identifier that was not there and keeps the last
    500 (400) entries. *)
Lemma cycle_appends_new_identifiers (s : State) (w : World) :
  (processed_notifications (snd (fst (do_one_action s w)))
   = processed_notifications s
   \/ exists nid,
        ~ In nid (processed_notifications s)
        /\ processed_notifications (snd (fst (do_one_action s w)))
           = last_n 500 (processed_notifications s ++ [nid]))
  /\ (recent_reblogs (snd (fst (do_one_action s w)))
      = recent_reblogs (after_resets s (cycle_time w))
      \/ exists sid,
           ~ In sid (recent_reblogs (after_resets s (cycle_time w)))
           /\ recent_reblogs (snd (fst (do_one_action s w)))
              = last_n 400
                  (recent_reblogs (after_resets s (cycle_time w)) ++ [sid])).
Proof.
  pose proof (do_one_action_effect s w) as H.
  destruct H as [nid _ Hne Hn|sid _ _ Hn|a t img at_ _ _ _ _|_| |e];
    try (split; left; [apply after_resets_processed|reflexivity]).
  - split; [right|left].
    + exists nid. apply mem_false in Hn.
      rewrite after_resets_processed in Hn. split; [exact Hn|].
      unfold record_engagement. rewrite Hne.
      cbn [processed_notifications set_hourly set_daily
             set_processed_notifications].
      now rewrite after_resets_processed.
    + unfold record_engagement. now rewrite Hne.
  - split; [left|right].
    + apply after_resets_processed.
    + exists (str sid). apply mem_false in Hn. now split.
Qed.

(** C9: in every reachable state the processed notifications and the
    recent reblogs hold no identifier twice; a cycle appends to either
    list only an identifier that is not in it, and the daily reset keeps
    the recent reblogs or their last 200. *)
Theorem identifiers_never_duplicated (s : State) :
  reachable s ->
  NoDup (processed_notifications s) /\ NoDup (recent_reblogs s)
  /\ forall w,
       (processed_notifications (snd (fst (do_one_action s w)))
        = processed_notifications s
        \/ exists nid,
             ~ In nid (processed_notifications s)
             /\ processed_notifications (snd (fst (do_one_action s w)))
                = last_n 500 (processed_notifications s ++ [nid]))
       /\ (recent_reblogs (after_resets s (cycle_time w)) = recent_reblogs s
           \/ recent_reblogs (after_resets s (cycle_time w))
              = last_n 200 (recent_reblogs s))
       /\ (recent_reblogs (snd (fst (do_one_action s w)))
           = recent_reblogs (after_resets s (cycle_time w))
           \/ exists sid,
                ~ In sid (recent_reblogs (after_resets s (cycle_time w)))
                /\ recent_reblogs (snd (fst (do_one_action s w)))
                   = last_n 400
                       (recent_reblogs (after_resets s (cycle_time w))
                        ++ [sid])).
Proof.
  intros H.
  assert (Hn : no_duplicates s).
  { revert s H. apply reachable_ind_effect.
    - split; constructor.
    - intros s now_local. apply after_resets_no_duplicates.
    - intros now_local s0 o s'. apply cycle_effect_no_duplicates. }
  destruct Hn as [H1 H2]. split; [exact H1|]. split; [exact H2|].
  intros w. destruct (cycle_appends_new_identifiers s w) as [Hp Hr].
  split; [exact Hp|]. split; [apply after_resets_recent_reblogs|exact Hr].
Qed.

Lemma identifiers_never_duplicated_witness :
  let s := snd (fst (do_one_action fresh_state favourite_works_world)) in
  reachable s
  /\ NoDup (processed_notifications s) /\ NoDup (recent_reblogs s).
Proof.
  assert (H : reachable
                (snd (fst (do_one_action fresh_state favourite_works_world))))
    by (apply reachable_cycle, reachable_fresh).
  split; [exact H|].
  exact (conj (proj1 (identifiers_never_duplicated H))
           (proj1 (proj2 (identifiers_never_duplicated H)))).
Defined.

(** ** Engagements and the processed list (C1) *)



Lemma accepted_favourite_marks_mention :
  let r := do_one_action fresh_state favourite_works_world in
  fst (fst r) = Ret engaged
  /\ processed_notifications (snd (fst r)) = ["7"].
Proof. vm_compute. split; reflexivity. Qed.

(** ** The retry wrapper (C5) *)

(** One round of the wrapper, with [k = tries + 1] the number of the
    attempt that failed: a rate-limit error sleeps [min (5 * 2^(k-1)) 60]
    and goes on (up to attempt 1024), another error sleeps [2 * k] and
    goes on for [k <= 2] and leaves the wrapper for [k >= 3]. *)
Lemma with_backoff_loop_round {A : Type} (fn : W A) (fuel : nat) (tries : Z)
    (w : World) :
  with_backoff_loop (S fuel) fn tries w
  = match fn w with
    | (Raise e, w') =>
        if _needs_backoff e then
          if 1024 <=? tries then (Raise OverflowError, w')
          else
            with_backoff_loop fuel fn (tries + 1)
              (set_trace
                 (Slept (inject_Z (Z.min (5 * 2 ^ tries) 60)) :: trace w') w')
        else if tries + 1 <=? 2 then
          with_backoff_loop fuel fn (tries + 1)
            (set_trace (Slept (inject_Z (2 * (tries + 1))) :: trace w') w')
        else (Raise e, w')
    | r => r
    end.
Proof.
  cbn [with_backoff_loop]. unfold try_except.
  destruct (fn w) as [[a|e|] w']; try reflexivity.
  destruct (_needs_backoff e).
  - unfold backoff_sleep. replace (tries + 1 - 1) with tries by lia.
    destruct (1024 <=? tries); reflexivity.
  - destruct (tries + 1 <=? 2); reflexivity.
Qed.

(** A call that the server always answers with a rate-limit error leaves
    the wrapper with [OverflowError]. *)
Lemma with_backoff_loop_always_rate_limited {A : Type} (fn : W A) :
  wsat fn (fun o => exists e, o = Raise e /\ _needs_backoff e = true) ->
  forall (fuel : nat) (tries : Z),
    0 <= tries <= 1024 -> 1025 <= tries + Z.of_nat fuel ->
    wsat (with_backoff_loop fuel fn tries) (fun o => o = Raise OverflowError).
Proof.
  intros Hfn fuel. induction fuel as [|fuel IH]; intros tries Ht Hf w.
  - simpl in Hf. lia.
  - rewrite with_backoff_loop_round.
    destruct (Hfn w) as [e [He Hb]].
    destruct (fn w) as [o w']. simpl in He. subst o. rewrite Hb.
    destruct (1024 <=? tries) eqn:E; [reflexivity|].
    apply Z.leb_gt in E. apply IH; lia.
Qed.

(** C5, at the input where the code departs from it: the server answers
    every attempt with a rate-limit error; the wrapper makes 1025 attempts
    and then raises [OverflowError] instead of sleeping and retrying.  With
    1024 such answers followed by a success the wrapper still returns, and
    with three it sleeps 5, 10 and 20 seconds. *)
Theorem rate_limit_retries_overflow :
  fst (favourite_status (IdInt 70) always_rate_limited_world)
  = Raise OverflowError
  /\ count_calls (trace (snd (favourite_status (IdInt 70)
                                always_rate_limited_world))) = 1025%nat
  /\ fst (favourite_status (IdInt 70) (rate_limited_world 1024)) = Ret true
  /\ fst (favourite_status (IdInt 70) (rate_limited_world 3)) = Ret true
  /\ slept (trace (snd (favourite_status (IdInt 70) (rate_limited_world 3))))
     = [inject_Z 5; inject_Z 10; inject_Z 20].
Proof. vm_compute. repeat split; reflexivity. Qed.

(** Errors that are not rate limits: two retries, after 2 and 4 seconds,
    then the third error leaves the wrapper. *)
Lemma with_backoff_other_errors :
  let r := favourite_status (IdInt 70)
             (set_srv_favourite (Tape [] (inl (Exception "boom")))
                (calm_world eight_am)) in
  fst r = Raise (Exception "boom")
  /\ count_calls (trace (snd r)) = 3%nat
  /\ slept (trace (snd r)) = [inject_Z 2; inject_Z 4].
Proof. vm_compute. repeat split; reflexivity. Qed.

(** The counter of attempts is shared: after two rate-limit errors the
    first error of another kind leaves the wrapper at once. *)
Lemma with_backoff_shared_counter :
  let r := favourite_status (IdInt 70)
             (set_srv_favourite
                (Tape [ inl (Exception "429"); inl (Exception "429") ]
                   (inl (Exception "boom")))
                (calm_world eight_am)) in
  fst r = Raise (Exception "boom")
  /\ count_calls (trace (snd r)) = 3%nat
  /\ slept (trace (snd r)) = [inject_Z 5; inject_Z 10].
Proof. vm_compute. repeat split; reflexivity. Qed.

(** ** The anti-repetition picker (C7) *)

Lemma next_tape_all {A : Type} (P : A -> Prop) (t : tape A) :
  tape_all P t -> P (fst (next t)) /\ tape_all P (snd (next t)).
Proof.
  unfold tape_all, next. intros [Hu Ht].
  destruct (upcoming t) as [|x xs] eqn:E; simpl.
  - rewrite E. auto.
  - inversion Hu; subst. auto.
Qed.

Lemma shuffle_from_clock {A : Type} (i : nat) (x : list A) (w : World) :
  clock_utc (snd (shuffle_from i x w)) = clock_utc w.
Proof.
  revert x w. induction i as [|i IH]; intros x w; [reflexivity|].
  cbn [shuffle_from]. unfold bind at 1. unfold randbelow, bind, read, ret.
  destruct (next (random_ints w)) as [r t].
  rewrite IH. reflexivity.
Qed.

Lemma random_shuffle_clock {A : Type} (l : list A) (w : World) :
  clock_utc (snd (random_shuffle l w)) = clock_utc w.
Proof. apply shuffle_from_clock. Qed.

(** The loop of the picker answers a text that was not used recently at
    the time it was looked up, or [None] when each text of the list was
    used recently at the time it was looked up. *)
Lemma first_not_recent_answer (P : instant -> Prop) (state : State)
    (l : list string) (w : World) :
  tape_all P (clock_utc w) ->
  match fst (first_not_recent state l w) with
  | Ret (Some s) =>
      In s l
      /\ exists now, P now /\ recently_used_text_at now state s 7 = false
  | Ret None =>
      forall s, In s l ->
                exists now, P now /\ recently_used_text_at now state s 7 = true
  | _ => False
  end.
Proof.
  revert w. induction l as [|s rest IH]; intros w Hw.
  - simpl. intros s [].
  - cbn [first_not_recent].
    unfold bind at 1. unfold recently_used_text, bind, utc_now, read, ret.
    destruct (@next_tape_all _ P (clock_utc w) Hw) as [Hnow Hw'].
    destruct (next (clock_utc w)) as [now t]. simpl in Hnow, Hw'.
    destruct (recently_used_text_at now state s 7) eqn:E; cbn [negb].
    + specialize (IH (set_clock_utc t w) Hw').
      destruct (fst (first_not_recent state rest (set_clock_utc t w)))
        as [[s'|]|e|]; try contradiction.
      * destruct IH as [Hin Hex]. split; [now right|exact Hex].
      * intros s' [<-|Hin]; [now exists now|now apply IH].
    + simpl. split; [now left|now exists now].
Qed.

Lemma recently_used_text_at_In (now : instant) (state : State) (t : string) :
  recently_used_text_at now state t 7 = true
  <-> exists item when,
        In item (history state) /\ ts item = Some when
        /\ now - timedelta_days 7 <= when
        /\ strip (text item) = strip t.
Proof.
  unfold recently_used_text_at. rewrite existsb_exists. split.
  - intros [item [Hin H]]. apply in_rev in Hin.
    destruct (ts item) as [when|] eqn:E; [|discriminate].
    apply andb_prop in H. destruct H as [H1 H2].
    apply Z.leb_le in H1. apply String.eqb_eq in H2.
    now exists item, when.
  - intros [item [when [Hin [E [H1 H2]]]]].
    exists item. split; [now apply in_rev in Hin|].
    rewrite E. apply andb_true_intro. split.
    + now apply Z.leb_le.
    + now apply String.eqb_eq.
Qed.

(** After [remember_post], a text counts as used recently only if it did
    before or if it is, up to trimming, the text just remembered. *)
Lemma recently_used_after_remember (now t1 : instant) (state : State)
    (p1 a : string) (m : option string) :
  recently_used_text_at now (remember_post_at t1 state p1 m) a 7 = true ->
  recently_used_text_at now state a 7 = true \/ strip p1 = strip a.
Proof.
  rewrite !recently_used_text_at_In.
  intros [item [when [Hin [E [H1 H2]]]]].
  unfold remember_post_at in Hin.
  cbn [history set_history] in Hin.
  apply last_n_incl in Hin. apply in_app_or in Hin.
  destruct Hin as [Hin|[<-|[]]].
  - left. now exists item, when.
  - right. exact H2.
Qed.

(** The text just remembered counts as used recently for seven days. *)
Lemma recently_used_just_remembered (now t1 : instant) (state : State)
    (p1 : string) (m : option string) :
  now - timedelta_days 7 <= t1 ->
  recently_used_text_at now (remember_post_at t1 state p1 m) p1 7 = true.
Proof.
  intros H. apply recently_used_text_at_In.
  eexists. exists t1. split.
  - unfold remember_post_at. cbn [history set_history].
    apply last_n_snoc. lia.
  - simpl. auto.
Qed.

(** C7, as the code has it: the pool holds two texts that differ after
    trimming, none of its texts was used in the seven days before any
    reading of the clock that the pick takes, and the text [p1] of the
    previous pick was remembered (at [t1], by [remember_post]) less than
    seven days before those readings; then the pick returns a text of the
    pool other than [p1], whatever the random generator draws. *)
Theorem second_pick_differs (state : State) (pool : list string)
    (p1 : string) (t1 : instant) (m : option string) (w : World) :
  (exists a b, In a pool /\ In b pool /\ strip a <> strip b) ->
  tape_all
    (fun now =>
       now - timedelta_days 7 <= t1
       /\ forall a, In a pool -> recently_used_text_at now state a 7 = false)
    (clock_utc w) ->
  exists p2,
    fst (pick_without_recent (remember_post_at t1 state p1 m) pool w) = Ret p2
    /\ In p2 pool /\ p2 <> p1 /\ strip p2 <> strip p1.
Proof.
  intros [a [b [Ha [Hb Hab]]]] Hw.
  set (state' := remember_post_at t1 state p1 m).
  unfold pick_without_recent, bind.
  pose proof (random_shuffle_Permutation pool w) as Hperm.
  pose proof (random_shuffle_clock pool w) as Hclock.
  destruct (random_shuffle pool w) as [[shuffled|e|] w1];
    simpl in Hperm, Hclock; try contradiction.
  rewrite <- Hclock in Hw.
  pose proof (@first_not_recent_answer _ state' shuffled w1 Hw) as H.
  destruct (first_not_recent state' shuffled w1) as [[[s|]|e|] w2];
    simpl in H; try contradiction.
  - destruct H as [Hin [now [[Hnow _] Hunused]]].
    assert (Hs : strip s <> strip p1).
    { intros E.
      pose proof (@recently_used_just_remembered now t1 state p1 m Hnow) as Hu.
      fold state' in Hu.
      apply recently_used_text_at_In in Hu.
      destruct Hu as [item [when Hitem]].
      assert (Hu' : recently_used_text_at now state' s 7 = true).
      { apply recently_used_text_at_In. exists item, when.
        rewrite E. exact Hitem. }
      congruence. }
    exists s. simpl. split; [reflexivity|]. split.
    + apply Permutation_sym in Hperm. now apply (Permutation_in _ Hperm).
    + split; [|exact Hs]. intros E. apply Hs. now rewrite E.
  - exfalso.
    assert (Hc : exists c, In c pool /\ strip p1 <> strip c).
    { destruct (string_dec (strip p1) (strip a)) as [E|E].
      - exists b. split; [exact Hb|]. now rewrite E.
      - now exists a. }
    destruct Hc as [c [Hc Hne]].
    destruct (H c (Permutation_in _ Hperm Hc)) as [now [[_ Hold] Hused]].
    apply recently_used_after_remember in Hused.
    destruct Hused as [Hused|Hused]; [|contradiction].
    rewrite (Hold c Hc) in Hused. discriminate.
Qed.

Lemma second_pick_differs_witness :
  (exists a b, In a GM_LONG /\ In b GM_LONG /\ strip a <> strip b)
  /\ tape_all
       (fun now =>
          now - timedelta_days 7 <= 0
          /\ forall a, In a GM_LONG ->
                       recently_used_text_at now fresh_state a 7 = false)
       (clock_utc (calm_world eight_am))
  /\ exists p2,
       fst (pick_without_recent
              (remember_post_at 0 fresh_state
                 "GM ✨ New day, new brushstrokes." None)
              GM_LONG (calm_world eight_am)) = Ret p2
       /\ In p2 GM_LONG
       /\ p2 <> "GM ✨ New day, new brushstrokes."
       /\ strip p2 <> strip "GM ✨ New day, new brushstrokes.".
Proof.
  assert (H1 : exists a b, In a GM_LONG /\ In b GM_LONG /\ strip a <> strip b).
  { exists "GM 🌱 Wishing you a day full of creativity and light.",
           "GM ✨ New day, new brushstrokes.".
    split; [now left|]. split; [right; now left|].
    vm_compute. discriminate. }
  assert (H2 : tape_all
                 (fun now =>
                    now - timedelta_days 7 <= 0
                    /\ forall a, In a GM_LONG ->
                                 recently_used_text_at now fresh_state a 7
                                 = false)
                 (clock_utc (calm_world eight_am))).
  { split; [constructor|]. split; [simpl; lia|]. intros a _. reflexivity. }
  split; [exact H1|]. split; [exact H2|].
  exact (@second_pick_differs fresh_state GM_LONG
           "GM ✨ New day, new brushstrokes." 0 None
           (calm_world eight_am) H1 H2).
Defined.

(** The claim as it stands fails: the pool has three texts, none used
    before; the first pick is remembered at instant 0; the next pick, eight
    days later, returns the same text. *)
Lemma consecutive_picks_can_repeat :
  (2 <= List.length GM_LONG)%nat
  /\ (forall a, In a GM_LONG ->
                recently_used_text_at 0 fresh_state a 7 = false)
  /\ exists p,
       fst (pick_without_recent fresh_state GM_LONG (calm_world eight_am))
       = Ret p
       /\ fst (pick_without_recent (remember_post_at 0 fresh_state p None)
                 GM_LONG eight_days_later_world)
          = Ret p.
Proof.
  split; [simpl; lia|]. split; [intros a _; reflexivity|].
  exists "GM ✨ New day, new brushstrokes.".
  split; vm_compute; reflexivity.
Qed.

(** ** The long greeting outside the morning and the evening (C10) *)




Lemma last_n_snoc_eq {A : Type} (n : nat) (l : list A) (x : A) :
  (0 < n)%nat -> exists older, last_n n (l ++ [x]) = older ++ [x].
Proof.
  intros Hn. unfold last_n. rewrite length_app. simpl.
  rewrite skipn_app.
  replace (List.length l + 1 - n - List.length l)%nat with 0%nat by lia.
  now eexists.
Qed.

(** In a cycle outside the two windows that posts a long greeting (the
    count of long greetings goes up), the text posted, which is the last
    one of the history, is a member of the short pool. *)
Lemma posted_long_greeting_is_short (s : State) (w : World) :
  in_time_window (cycle_time w) morning = false ->
  in_time_window (cycle_time w) evening = false ->
  fst (fst (do_one_action s w)) = Ret posted ->
  pertype_get (pertype (snd (fst (do_one_action s w)))) post_gmgn_long
  = pertype_get (pertype (after_resets s (cycle_time w))) post_gmgn_long + 1 ->
  exists older entry,
    history (snd (fst (do_one_action s w))) = older ++ [entry]
    /\ In (text entry) GM_SHORT.
Proof.
  intros Hm He Ho Hcount.
  pose proof (do_one_action_effect s w) as H.
  destruct H as [nid _ _ _|sid _ _ _|a t img at_ _ _ _ Hok|_| |e];
    try discriminate Ho.
  assert (Ha : a = post_gmgn_long).
  { destruct a; simpl in Hcount; try reflexivity; lia. }
  specialize (Hok Ha Hm He).
  destruct (@last_n_snoc_eq _ 400
              (history (after_resets s (cycle_time w)))
              (mkEntry t (Some at_)
                 (match img with
                  | Some m => if nonempty m then Some m else None
                  | None => None
                  end))) as [older E]; [lia|].
  exists older. eexists. split; [subst a; exact E|exact Hok].
Qed.

(** * Further properties of the code *)

(** ** The resets *)

Lemma reset_hourly_sets_key (state : State) (now_local : datetime) :
  h_key (hourly (reset_hourly_if_needed state now_local)) = hour_key now_local.
Proof.
  unfold reset_hourly_if_needed.
  destruct (h_key (hourly state) =? hour_key now_local)%string eqn:E;
    cbn [negb]; [now apply String.eqb_eq in E|reflexivity].
Qed.

(** X1: the hourly reset is idempotent, sets the stored key to the key of
    [now], touches nothing but the hourly counters, and commutes with the
    daily reset (at any two instants). *)
Theorem reset_hourly_local (state : State) (now_local now' : datetime) :
  reset_hourly_if_needed (reset_hourly_if_needed state now_local) now_local
  = reset_hourly_if_needed state now_local
  /\ h_key (hourly (reset_hourly_if_needed state now_local))
     = hour_key now_local
  /\ set_hourly (reset_hourly_if_needed state now_local) (hourly state)
     = state
  /\ reset_daily_if_needed (reset_hourly_if_needed state now_local) now'
     = reset_hourly_if_needed (reset_daily_if_needed state now') now_local.
Proof.
  unfold reset_hourly_if_needed, reset_daily_if_needed.
  destruct (h_key (hourly state) =? hour_key now_local)%string eqn:E;
    cbn [negb].
  - rewrite E. cbn [negb]. apply String.eqb_eq in E.
    repeat split; try assumption; try (now destruct state).
    destruct (negb (d_date (daily state) =? date_isoformat now')%string);
      cbn [hourly set_pertype set_recent_reblogs set_daily];
      apply String.eqb_eq in E; rewrite E; cbn [negb]; reflexivity.
  - cbn [hourly set_hourly h_key]. rewrite String.eqb_refl. cbn [negb].
    repeat split; try (now destruct state).
    cbn [daily set_hourly].
    destruct (negb (d_date (daily state) =? date_isoformat now')%string);
      cbn [hourly set_pertype set_recent_reblogs set_daily];
      rewrite E; reflexivity.
Qed.

Lemma append_inj_l (p a b : string) :
  (p ++ a)%string = (p ++ b)%string -> a = b.
Proof.
  induction p as [|c p IH]; simpl; intros H; [exact H|].
  injection H as H. now apply IH.
Qed.

Lemma pad2_distinct (l : list Z) (a b : Z) :
  pad2_distinct_on l = true -> In a l -> In b l -> pad2 a = pad2 b -> a = b.
Proof.
  unfold pad2_distinct_on. intros H Ha Hb E.
  rewrite forallb_forall in H. specialize (H a Ha).
  rewrite forallb_forall in H. specialize (H b Hb).
  apply String.eqb_eq in E. rewrite E in H. simpl in H.
  now apply Z.eqb_eq.
Qed.

Lemma In_hours_of_day (h : Z) : 0 <= h < 24 -> In h hours_of_day.
Proof.
  intros H. unfold hours_of_day.
  rewrite <- (Z2Nat.id h) by lia. apply in_map, in_seq. lia.
Qed.

Lemma In_days_of_month (d : Z) : 1 <= d <= 31 -> In d days_of_month.
Proof.
  intros H. unfold days_of_month.
  rewrite <- (Z2Nat.id d) by lia. apply in_map, in_seq. lia.
Qed.

(** X2: on the same date, two different hours of the day have different
    hour keys; so a state whose hourly counters were set at one hour has
    them zeroed by the reset at another hour. *)
Theorem hour_change_zeroes_hourly (state : State) (y m d h1 h2 : Z) :
  0 <= h1 < 24 -> 0 <= h2 < 24 -> h1 <> h2 ->
  hour_key (DateTime y m d h1) <> hour_key (DateTime y m d h2)
  /\ hourly
       (reset_hourly_if_needed
          (reset_hourly_if_needed state (DateTime y m d h1))
          (DateTime y m d h2))
     = mkHourly (hour_key (DateTime y m d h2)) 0 0.
Proof.
  intros H1 H2 Hne.
  assert (Hk : hour_key (DateTime y m d h1) <> hour_key (DateTime y m d h2)).
  { unfold hour_key, date_isoformat. cbn [year month day hour]. intros E.
    apply Hne.
    apply (@pad2_distinct hours_of_day);
      [vm_compute; reflexivity|now apply In_hours_of_day
      |now apply In_hours_of_day|].
    do 2 apply append_inj_l in E. exact E. }
  split; [exact Hk|].
  unfold reset_hourly_if_needed at 1.
  rewrite reset_hourly_sets_key.
  apply String.eqb_neq in Hk. rewrite Hk. reflexivity.
Qed.

Lemma hour_change_zeroes_hourly_witness :
  0 <= 8 < 24 /\ 0 <= 9 < 24 /\ 8 <> 9
  /\ hourly
       (reset_hourly_if_needed
          (reset_hourly_if_needed fresh_state (DateTime 2026 11 4 8))
          (DateTime 2026 11 4 9))
     = mkHourly (hour_key (DateTime 2026 11 4 9)) 0 0.
Proof.
  assert (H1 : 0 <= 8 < 24) by lia.
  assert (H2 : 0 <= 9 < 24) by lia.
  assert (H3 : 8 <> 9) by lia.
  repeat (split; [assumption|]).
  exact (proj2 (@hour_change_zeroes_hourly fresh_state 2026 11 4 8 9
                  H1 H2 H3)).
Defined.

(** X3: in the same month, two different days have different date keys;
    so the daily reset on another day zeroes the daily counters and the
    counts per type, and keeps the last 200 recent reblogs. *)
Theorem day_change_zeroes_daily (state : State) (y m d1 d2 h h' : Z) :
  1 <= d1 <= 31 -> 1 <= d2 <= 31 -> d1 <> d2 ->
  d_date (daily state) = date_isoformat (DateTime y m d1 h) ->
  date_isoformat (DateTime y m d1 h) <> date_isoformat (DateTime y m d2 h')
  /\ reset_daily_if_needed state (DateTime y m d2 h')
     = mkState (history state)
         (mkDaily (date_isoformat (DateTime y m d2 h')) 0 0)
         (hourly state) (processed_notifications state)
         (last_n 200 (recent_reblogs state)) _pertype_zero.
Proof.
  intros H1 H2 Hne Hd.
  assert (Hk : date_isoformat (DateTime y m d1 h)
               <> date_isoformat (DateTime y m d2 h')).
  { unfold date_isoformat. cbn [year month day]. intros E. apply Hne.
    apply (@pad2_distinct days_of_month);
      [vm_compute; reflexivity|now apply In_days_of_month
      |now apply In_days_of_month|].
    do 4 apply append_inj_l in E. exact E. }
  split; [exact Hk|].
  unfold reset_daily_if_needed. rewrite Hd.
  apply String.eqb_neq in Hk. rewrite Hk. reflexivity.
Qed.

Lemma day_change_zeroes_daily_witness :
  let s := reset_daily_if_needed fresh_state (DateTime 2026 11 4 8) in
  1 <= 4 <= 31 /\ 1 <= 5 <= 31 /\ 4 <> 5
  /\ d_date (daily s) = date_isoformat (DateTime 2026 11 4 8)
  /\ daily (reset_daily_if_needed s (DateTime 2026 11 5 7))
     = mkDaily "2026-11-05" 0 0.
Proof.
  assert (H1 : 1 <= 4 <= 31) by lia.
  assert (H2 : 1 <= 5 <= 31) by lia.
  assert (H3 : 4 <> 5) by lia.
  assert (H4 : d_date (daily (reset_daily_if_needed fresh_state
                                (DateTime 2026 11 4 8)))
               = date_isoformat (DateTime 2026 11 4 8)) by reflexivity.
  repeat (split; [assumption|]).
  rewrite (proj2 (@day_change_zeroes_daily
                    (reset_daily_if_needed fresh_state (DateTime 2026 11 4 8))
                    2026 11 4 5 8 7 H1 H2 H3 H4)).
  reflexivity.
Defined.

(** ** Windows, selector and downgrade chain *)

Ltac split_comparisons :=
  repeat match goal with
         | |- context [?a <=? ?b] => destruct (Z.leb_spec a b)
         | |- context [?a <? ?b] => destruct (Z.ltb_spec a b)
         | |- context [?a =? ?b] => destruct (Z.eqb_spec a b)
         end.

(** X4: the three windows exclude one another, and the quiet hours are
    exactly the hours that are in none of them. *)
Theorem windows_and_quiet_hours (now_local : datetime) :
  is_quiet_hours now_local
  = negb (in_time_window now_local morning
          || in_time_window now_local midday
          || in_time_window now_local evening)
  /\ in_time_window now_local morning && in_time_window now_local midday
     = false
  /\ in_time_window now_local morning && in_time_window now_local evening
     = false
  /\ in_time_window now_local midday && in_time_window now_local evening
     = false.
Proof.
  unfold is_quiet_hours, in_time_window, NO_POST_START_HOUR,
    NO_POST_END_HOUR.
  change (23 <=? 7) with false. cbv iota.
  repeat split; split_comparisons; simpl; try reflexivity; lia.
Qed.

(** X5: the selector never answers an action that has reached its cap; it
    answers the reblog exactly when the short links and the long greeting
    are used up and the window offers no image greeting; it answers the
    image greeting in the morning and in the evening only. *)
Theorem selector_respects_caps (now_local : datetime) (pt : PerType) :
  (choose_action_with_caps now_local pt <> reblog ->
   under_cap pt (choose_action_with_caps now_local pt))
  /\ (choose_action_with_caps now_local pt = reblog <->
      links_and_long_used_up pt
      /\ (in_time_window now_local morning = true ->
          pertype_get pt post_img_gmgn_short <> 0)
      /\ (in_time_window now_local evening = true ->
          MAX_IMG_GMGN_PER_DAY <= pertype_get pt post_img_gmgn_short))
  /\ (choose_action_with_caps now_local pt = post_img_gmgn_short ->
      in_time_window now_local morning = true
      \/ in_time_window now_local evening = true).
Proof.
  split; [|split].
  - intros H. destruct (choose_action_under_cap now_local pt); tauto.
  - unfold choose_action_with_caps, links_and_long_used_up, in_time_window,
      MAX_IMG_GMGN_PER_DAY, MAX_SHORT_LINK_PER_DAY, MAX_GMGN_LONG_PER_DAY,
      pertype_get.
    split_comparisons; try (exfalso; lia); simpl;
      (split;
       [intros Hgoal; try discriminate Hgoal; repeat split; try lia;
        intros; try discriminate; try lia
       |intros [[Hl Hg] [Hm He]]; try reflexivity; exfalso; try lia;
        try (specialize (Hm eq_refl); lia);
        try (specialize (He eq_refl); lia)]).
  - unfold choose_action_with_caps, in_time_window.
    split_comparisons; simpl; intros Hgoal; try discriminate Hgoal; auto.
Qed.

(** X6: the downgrade chain never answers the image greeting nor the
    action it was given (the reblog apart), and what it answers is the
    reblog or an action under its cap.  It is applied to an action that has
    reached its cap only: on two actions under their caps it would go from
    the one to the other and back. *)
Theorem downgrade_from_chain (pt : PerType) (a : Action) :
  downgrade_from pt a <> post_img_gmgn_short
  /\ (a <> reblog -> downgrade_from pt a <> a)
  /\ (downgrade_from pt a = reblog \/ under_cap pt (downgrade_from pt a))
  /\ (downgrade_from pt a = reblog ->
      a = reblog \/ a = post_gmgn_long \/ a = post_short_link
      \/ links_and_long_used_up pt)
  /\ (under_cap pt post_short_link -> under_cap pt post_gmgn_long ->
      downgrade_from pt (downgrade_from pt post_gmgn_long) = post_gmgn_long).
Proof.
  split; [|split; [|split; [|split]]].
  - destruct a; simpl; split_comparisons; discriminate.
  - destruct a; simpl; split_comparisons; congruence.
  - apply downgrade_from_under_cap.
  - unfold links_and_long_used_up, MAX_SHORT_LINK_PER_DAY,
      MAX_GMGN_LONG_PER_DAY, pertype_get.
    destruct a; simpl; split_comparisons;
      intros Hgoal; try discriminate Hgoal; auto.
  - unfold under_cap. intros H1 H2. apply Z.ltb_lt in H1, H2.
    cbn [downgrade_from]. rewrite H1. cbn [downgrade_from]. now rewrite H2.
Qed.

(** ** What a cycle changes *)

Lemma last_n_length_le {A : Type} (n : nat) (l : list A) :
  (List.length (last_n n l) <= List.length l)%nat.
Proof. unfold last_n. rewrite length_skipn. lia. Qed.


Lemma after_resets_logs_bounded (s : State) (now_local : datetime) :
  logs_bounded s -> logs_bounded (after_resets s now_local).
Proof.
  unfold logs_bounded. intros [H1 [H2 H3]].
  rewrite after_resets_processed.
  destruct (after_resets_recent_reblogs s now_local) as [E|E]; rewrite E.
  - repeat split; try assumption.
    unfold after_resets, reset_hourly_if_needed, reset_daily_if_needed.
    destruct (negb (d_date (daily s) =? date_isoformat now_local)%string);
      cbv zeta;
      match goal with
      | |- context [if ?b then _ else _] => destruct b
      end; exact H1.
  - repeat split; try assumption.
    + unfold after_resets, reset_hourly_if_needed, reset_daily_if_needed.
      destruct (negb (d_date (daily s) =? date_isoformat now_local)%string);
        cbv zeta;
        match goal with
        | |- context [if ?b then _ else _] => destruct b
        end; exact H1.
    + pose proof (last_n_length_le 200 (recent_reblogs s)). lia.
Qed.

Lemma cycle_effect_logs_bounded (now_local : datetime) (s0 : State)
    (o : outcome Result) (s' : State) :
  cycle_effect now_local s0 o s' -> logs_bounded s0 -> logs_bounded s'.
Proof.
  intros H [H1 [H2 H3]]. unfold logs_bounded.
  destruct H as [nid _ Hne _|sid _ _ _|a t img at_ _ _ _ _|_| |e]; auto.
  - unfold record_engagement. rewrite Hne. simpl.
    repeat split; try assumption. apply last_n_length.
  - simpl. repeat split; try assumption. apply last_n_length.
  - destruct a; simpl; repeat split; try assumption; apply last_n_length.
Qed.

(** X8: in every reachable state the history holds at most 400 records,
    the processed notifications at most 500 identifiers and the recent
    reblogs at most 400. *)
Theorem logs_stay_bounded (s : State) :
  reachable s ->
  (List.length (history s) <= 400)%nat
  /\ (List.length (processed_notifications s) <= 500)%nat
  /\ (List.length (recent_reblogs s) <= 400)%nat.
Proof.
  intros H. change (logs_bounded s). revert s H.
  apply reachable_ind_effect.
  - unfold logs_bounded. simpl. lia.
  - intros s now_local. apply after_resets_logs_bounded.
  - intros now_local s0 o s'. apply cycle_effect_logs_bounded.
Qed.

Lemma logs_stay_bounded_witness :
  let s := snd (fst (do_one_action fresh_state (calm_world eight_am))) in
  reachable s /\ (List.length (history s) <= 400)%nat.
Proof.
  assert (H : reachable
                (snd (fst (do_one_action fresh_state (calm_world eight_am)))))
    by (apply reachable_cycle, reachable_fresh).
  split; [exact H|]. exact (proj1 (logs_stay_bounded H)).
Defined.

(** ** When a cycle reblogs *)

Lemma sat_any {A : Type} (m : SM A) (s : State)
    (Q : outcome A -> State -> Prop) :
  (forall o s', Q o s') -> sat m s Q.
Proof. intros H w. apply H. Qed.

Lemma choose_reblog_used_up (now_local : datetime) (pt : PerType) :
  choose_action_with_caps now_local pt = reblog -> links_and_long_used_up pt.
Proof.
  unfold choose_action_with_caps, links_and_long_used_up,
    MAX_IMG_GMGN_PER_DAY, MAX_SHORT_LINK_PER_DAY, MAX_GMGN_LONG_PER_DAY,
    pertype_get.
  split_comparisons; simpl; intros Hgoal; try discriminate Hgoal; lia.
Qed.

Lemma try_reblog_answers (sid : pyid) (s : State) :
  sat (try_reblog sid) s
    (ret_post (fun r => r = Some reblogged \/ r = None)).
Proof.
  unfold try_reblog. destruct (truthy sid); [|apply sat_ret; now right].
  apply sat_try, sat_bind.
  eapply sat_lift; [apply ends_reblog_status|].
  intros [b|e|] _; [|apply sat_ret; now right|exact I].
  apply sat_bind, sat_update, sat_bind, sat_save_state, sat_bind, sat_nap,
    sat_ret.
  now left.
Qed.

Lemma reblog_last_answers (s : State) :
  sat reblog_last s (ret_post (fun r => r = reblogged \/ r = skip)).
Proof.
  unfold reblog_last. apply sat_bind.
  eapply sat_lift; [apply ends_pick_safe_reblog|].
  intros [sid|e|] _; [|exact I|exact I].
  apply sat_bind.
  eapply sat_conseq; [apply try_reblog_answers|].
  intros [r|e|] s' H; try exact I.
  destruct H as [->| ->]; apply sat_ret; [now left|now right].
Qed.

Lemma publish_answers (l : Locals) (s : State) :
  sat (publish l) s (ret_post (fun r => r <> reblogged)).
Proof.
  unfold publish.
  destruct (text_ l) as [t|]; [|apply sat_ret; discriminate].
  destruct (negb (nonempty t)); [apply sat_ret; discriminate|].
  apply sat_bind, sat_try, sat_bind.
  eapply sat_lift; [apply ends_post_status|].
  intros [sid|e|] _; [| |exact I].
  - apply sat_ret.
    destruct (truthy sid); [|apply sat_ret; discriminate].
    unfold remember_post.
    apply sat_bind, sat_bind.
    eapply sat_lift; [apply succeeds_utc_now|].
    intros [now|e|] Hn; try contradiction.
    apply sat_update, sat_bind, sat_update, sat_bind, sat_save_state,
      sat_bind, sat_nap, sat_ret.
    discriminate.
  - apply sat_ret, sat_ret. discriminate.
Qed.

Lemma prepare_img_justified (now_local : datetime) (pt : PerType) (l : Locals)
    (s : State) :
  reblog_justified pt l ->
  sat (prepare_img now_local pt l) s (ret_post (reblog_justified pt)).
Proof.
  intros Hl. unfold prepare_img.
  destruct (action l) eqn:Ea; try (apply sat_ret; exact Hl).
  apply sat_bind.
  eapply sat_lift; [apply ends_pick_gmgn_text|].
  intros [t|e|] _; [|exact I|exact I].
  apply sat_bind.
  eapply sat_lift; [apply ends_pick_fresh_image|].
  intros [[img|]|e|] _; try exact I; apply sat_ret.
  - unfold reblog_justified. cbn [action]. discriminate.
  - unfold reblog_justified, links_and_long_used_up, MAX_SHORT_LINK_PER_DAY,
      MAX_GMGN_LONG_PER_DAY. cbn [action downgrade_from].
    unfold MAX_SHORT_LINK_PER_DAY, MAX_GMGN_LONG_PER_DAY.
    split_comparisons; intros Hgoal; try discriminate Hgoal; lia.
Qed.

Lemma prepare_long_justified (now_local : datetime) (pt : PerType) (l : Locals)
    (s : State) :
  reblog_justified pt l ->
  sat (prepare_long now_local pt l) s (ret_post (reblog_justified pt)).
Proof.
  intros Hl. unfold prepare_long.
  destruct (action l) eqn:Ea; try (apply sat_ret; exact Hl).
  destruct (Z.leb_spec MAX_GMGN_LONG_PER_DAY (pertype_get pt post_gmgn_long))
    as [Hcap|Hcap].
  - apply sat_ret.
    unfold reblog_justified, links_and_long_used_up. cbn [action downgrade_from].
    destruct (Z.ltb_spec (pertype_get pt post_short_link)
                MAX_SHORT_LINK_PER_DAY);
      intros Hgoal; try discriminate Hgoal. now split.
  - apply sat_bind.
    eapply sat_lift; [apply ends_pick_gmgn_text|].
    intros [t|e|] _; [|exact I|exact I].
    apply sat_bind.
    eapply sat_lift; [apply ends_random_random|].
    intros [r|e|] _; [|exact I|exact I].
    destruct (Qltb r (30 # 100)).
    + apply sat_bind.
      eapply sat_lift; [apply ends_pick_fresh_image|].
      intros [img|e|] _; try exact I. apply sat_ret.
      unfold reblog_justified. cbn [action]. discriminate.
    + apply sat_ret. unfold reblog_justified. cbn [action]. discriminate.
Qed.

Lemma prepare_link_justified (pt : PerType) (l : Locals) (s : State) :
  reblog_justified pt l ->
  sat (prepare_link pt l) s (ret_post (reblog_justified pt)).
Proof.
  intros Hl. unfold prepare_link.
  destruct (action l) eqn:Ea; try (apply sat_ret; exact Hl).
  destruct (Z.leb_spec MAX_SHORT_LINK_PER_DAY
              (pertype_get pt post_short_link)) as [Hcap|Hcap].
  - apply sat_ret.
    unfold reblog_justified, links_and_long_used_up. cbn [action downgrade_from].
    destruct (Z.ltb_spec (pertype_get pt post_gmgn_long)
                MAX_GMGN_LONG_PER_DAY);
      intros Hgoal; try discriminate Hgoal. now split.
  - apply sat_bind.
    eapply sat_lift; [apply ends_pick_link_short|].
    intros [t|e|] _; [|exact I|exact I].
    apply sat_ret. unfold reblog_justified. cbn [action]. discriminate.
Qed.

Lemma post_step_reblog_used_up (now_local : datetime) (s : State) :
  sat (post_step now_local) s
    (ret_post (fun r => r = reblogged -> links_and_long_used_up (pertype s))).
Proof.
  unfold post_step. apply sat_bind, sat_get_state.
  destruct (Action_eqb (choose_action_with_caps now_local (pertype s)) reblog)
    eqn:E.
  - assert (U : links_and_long_used_up (pertype s)).
    { apply (choose_reblog_used_up now_local).
      destruct (choose_action_with_caps now_local (pertype s));
        try discriminate E; reflexivity. }
    apply sat_any. intros [r|e|] s'; simpl; auto.
  - apply sat_bind, sat_ret.
    apply sat_bind.
    eapply sat_conseq.
    { apply prepare_img_justified with (pt := pertype s).
      unfold reblog_justified. cbn [action]. intros H.
      rewrite H in E. discriminate E. }
    intros [l1|e|] s1 H1; try exact I.
    apply sat_bind.
    eapply sat_conseq; [apply (prepare_long_justified now_local s1 H1)|].
    intros [l2|e|] s2 H2; try exact I.
    apply sat_bind.
    eapply sat_conseq; [apply (prepare_link_justified s2 H2)|].
    intros [l3|e|] s3 H3; try exact I.
    destruct (Action_eqb (action l3) reblog) eqn:E3.
    + assert (U : links_and_long_used_up (pertype s)).
      { apply H3. destruct (action l3); try discriminate E3; reflexivity. }
      apply sat_any. intros [r|e|] s'; simpl; auto.
    + eapply sat_conseq; [apply publish_answers|].
      intros [r|e|] s' H; simpl; auto. intros ->. now elim H.
Qed.

Lemma engage_step_answers (s : State) :
  sat engage_step s (ret_post (fun r => r = Some engaged \/ r = None)).
Proof.
  unfold engage_step. apply sat_bind, sat_get_state.
  destruct (can_engage s); [|apply sat_ret; now right].
  apply sat_bind.
  eapply sat_lift; [apply ends_fetch_unprocessed_mentions|].
  intros [fresh|e|] _; [|exact I|exact I].
  apply sat_bind.
  eapply sat_lift; [apply ends_random_shuffle|].
  intros [[|n shuffled]|e|] _; try exact I; [apply sat_ret; now right|].
  apply sat_bind.
  eapply sat_lift; [apply ends_engage_for_notification|].
  intros [[k|]|e|] _; try exact I; [|apply sat_ret; now right].
  destruct (nonempty k); [|apply sat_ret; now right].
  apply sat_bind, sat_update, sat_bind, sat_save_state, sat_bind, sat_nap,
    sat_ret.
  now left.
Qed.

Lemma engage_step_state (now_local : datetime) (s : State) :
  sat engage_step s
    (fun o s' => match o with Ret None => s' = s | _ => True end).
Proof.
  eapply sat_conseq; [apply (engage_step_effect now_local s)|].
  intros [[r|]|e|] s' H; auto.
Qed.

(** A cycle reblogs only with the links and the long greeting of the day
    used up. *)
Lemma do_one_action_reblog_used_up (s : State) (w : World) :
  fst (fst (do_one_action s w)) = Ret reblogged ->
  links_and_long_used_up (pertype (after_resets s (cycle_time w))).
Proof.
  assert (H : forall now_local,
             sat (do_one_action_at now_local) s
               (ret_post (fun r => r = reblogged ->
                                   links_and_long_used_up
                                     (pertype (after_resets s now_local))))).
  { intros now_local. unfold do_one_action_at.
    apply sat_bind, sat_update, sat_bind, sat_update.
    fold (after_resets s now_local). set (s0 := after_resets s now_local).
    apply sat_bind.
    intros w0.
    pose proof (engage_step_answers s0 w0) as Ha.
    pose proof (engage_step_state now_local s0 w0) as Hs.
    destruct (fst (fst (engage_step s0 w0))) as [[r|]|e|]; try exact I.
    - destruct Ha as [Ha|Ha]; [|discriminate Ha].
      injection Ha as ->. apply sat_ret. simpl. discriminate.
    - rewrite Hs. apply sat_bind, sat_get_state.
      destruct (can_post s0 && negb (is_quiet_hours now_local)).
      + apply post_step_reblog_used_up.
      + apply sat_ret. simpl. discriminate. }
  unfold do_one_action, sm_bind, lift, datetime_now, read, cycle_time.
  destruct (next (clock_local w)) as [now t]. simpl.
  specialize (H now (set_clock_local t w)).
  destruct (fst (fst (do_one_action_at now s (set_clock_local t w))));
    intros E; try discriminate E.
  apply H. now injection E.
Qed.

Lemma after_resets_pertype (s : State) (now_local : datetime) :
  (pertype (after_resets s now_local) = pertype s
   /\ daily (after_resets s now_local) = daily s)
  \/ (pertype (after_resets s now_local) = _pertype_zero
      /\ d_posts (daily (after_resets s now_local)) = 0).
Proof.
  unfold after_resets, reset_hourly_if_needed, reset_daily_if_needed.
  destruct (negb (d_date (daily s) =? date_isoformat now_local)%string);
    cbv zeta;
    match goal with
    | |- context [if ?b then _ else _] => destruct b
    end; simpl; auto.
Qed.

Lemma after_resets_counts_consistent (s : State) (now_local : datetime) :
  counts_consistent s -> counts_consistent (after_resets s now_local).
Proof.
  unfold counts_consistent. intros H.
  destruct (after_resets_pertype s now_local) as [[-> ->]|[-> ->]];
    [exact H|simpl; lia].
Qed.

Lemma cycle_effect_counts_consistent (now_local : datetime) (s0 : State)
    (o : outcome Result) (s' : State) :
  cycle_effect now_local s0 o s' ->
  counts_consistent s0 -> counts_consistent s'.
Proof.
  intros H Hs. unfold counts_consistent in *.
  destruct H as [nid _ Hne _|sid _ _ _|a t img at_ _ _ _ _|_| |e]; auto.
  - unfold record_engagement. rewrite Hne. simpl in *. exact Hs.
  - simpl in *. lia.
  - destruct a; simpl in *; lia.
Qed.

Lemma reachable_counts_consistent (s : State) :
  reachable s -> counts_consistent s.
Proof.
  revert s. apply reachable_ind_effect.
  - unfold counts_consistent. simpl. lia.
  - intros s now_local. apply after_resets_counts_consistent.
  - intros now_local s0 o s'. apply cycle_effect_counts_consistent.
Qed.

Lemma reachable_within_caps (s : State) :
  reachable s -> within_rate_caps s /\ within_type_caps s.
Proof.
  intros H. split; revert s H; apply reachable_ind_effect.
  - unfold within_rate_caps. simpl. repeat split; discriminate.
  - intros s now_local. apply after_resets_rate_caps.
  - intros now_local s0 o s'. apply cycle_effect_rate_caps.
  - unfold within_type_caps. simpl. repeat split; discriminate.
  - intros s now_local. apply after_resets_type_caps.
  - intros now_local s0 o s'. apply cycle_effect_type_caps.
Qed.

Lemma reachable_reblog_only_when_used_up (s : State) :
  reachable s -> reblog_only_when_used_up s.
Proof.
  intros H. induction H as [|s w H IH].
  - unfold reblog_only_when_used_up. simpl. lia.
  - pose proof (do_one_action_effect s w) as He.
    pose proof (@do_one_action_reblog_used_up s w) as Hr.
    set (s0 := after_resets s (cycle_time w)) in *.
    assert (H0 : reblog_only_when_used_up s0).
    { unfold reblog_only_when_used_up, s0.
      destruct (after_resets_pertype s (cycle_time w)) as [[-> _]|[-> _]];
        [exact IH|simpl; lia]. }
    unfold reblog_only_when_used_up, links_and_long_used_up in *.
    destruct He as [nid _ Hne _|sid _ _ _|a t img at_ _ _ Ha _|_| |e];
      try exact H0.
    + unfold record_engagement. rewrite Hne. exact H0.
    + intros _. specialize (Hr eq_refl). simpl. exact Hr.
    + clear Hr.
      destruct a; simpl in *; try contradiction; intros Hpos;
        specialize (H0 Hpos);
        unfold MAX_SHORT_LINK_PER_DAY, MAX_GMGN_LONG_PER_DAY in *; lia.
Qed.

(** X9: in every reachable state the daily count of posts is the sum of
    the four counts per type, and no count is negative. *)
Theorem daily_posts_match_counts (s : State) :
  reachable s ->
  d_posts (daily s) = pertype_total (pertype s)
  /\ 0 <= pertype_get (pertype s) post_img_gmgn_short
  /\ 0 <= pertype_get (pertype s) post_gmgn_long
  /\ 0 <= pertype_get (pertype s) post_short_link
  /\ 0 <= pertype_get (pertype s) reblog.
Proof. intros H. exact (reachable_counts_consistent H). Qed.

Lemma daily_posts_match_counts_witness :
  let s := snd (fst (do_one_action fresh_state (calm_world eight_am))) in
  reachable s /\ d_posts (daily s) = pertype_total (pertype s).
Proof.
  assert (H : reachable
                (snd (fst (do_one_action fresh_state (calm_world eight_am)))))
    by (apply reachable_cycle, reachable_fresh).
  split; [exact H|]. exact (proj1 (daily_posts_match_counts H)).
Defined.

(** X10: in every reachable state at most one reblog has been counted
    today, and then on a day with two short links, one long greeting and
    no image greeting: a reblog is chosen only once the links and the long
    greeting are used up, which leaves one post of the daily four. *)
Theorem at_most_one_reblog_a_day (s : State) :
  reachable s ->
  pertype_get (pertype s) reblog <= 1
  /\ (0 < pertype_get (pertype s) reblog ->
      pertype_get (pertype s) post_short_link = 2
      /\ pertype_get (pertype s) post_gmgn_long = 1
      /\ pertype_get (pertype s) post_img_gmgn_short = 0).
Proof.
  intros H.
  pose proof (reachable_counts_consistent H) as Hc.
  destruct (reachable_within_caps H) as [Hr Ht].
  pose proof (reachable_reblog_only_when_used_up H) as Hu.
  unfold counts_consistent, within_rate_caps, within_type_caps,
    reblog_only_when_used_up, links_and_long_used_up, MAX_POSTS_PER_DAY,
    MAX_IMG_GMGN_PER_DAY, MAX_SHORT_LINK_PER_DAY, MAX_GMGN_LONG_PER_DAY in *.
  destruct (Z.ltb_spec 0 (pertype_get (pertype s) reblog)) as [Hpos|Hpos].
  - specialize (Hu Hpos). split; [lia|]. intros _. lia.
  - split; [lia|]. intros Hpos'. lia.
Qed.

Lemma at_most_one_reblog_a_day_witness :
  let s := snd (fst (do_one_action fresh_state (calm_world eight_am))) in
  reachable s /\ pertype_get (pertype s) reblog <= 1.
Proof.
  assert (H : reachable
                (snd (fst (do_one_action fresh_state (calm_world eight_am)))))
    by (apply reachable_cycle, reachable_fresh).
  split; [exact H|]. exact (proj1 (at_most_one_reblog_a_day H)).
Defined.

(** ** The pickers *)

Lemma first_not_recent_In (state : State) (l : list string) :
  wsat (first_not_recent state l)
    (fun o => match o with
              | Ret (Some s) => In s l
              | Ret None => True
              | _ => False
              end).
Proof.
  induction l as [|s rest IH]; cbn [first_not_recent].
  - now apply wsat_ret.
  - apply wsat_bind. unfold recently_used_text.
    apply wsat_bind, wsat_read. intros now. apply wsat_ret.
    destruct (negb (recently_used_text_at now state s 7)).
    + apply wsat_ret. now left.
    + eapply wsat_conseq; [exact IH|].
      intros [[s'|]|e|] H; auto. now right.
Qed.

(** X11: on a pool that is not empty [pick_without_recent] always returns
    a member of the pool, also when every text was used recently; on the
    empty pool it raises.  [pick_link_short] always returns one of the two
    links. *)
Theorem pickers_answer_from_pool (state : State) (pool : list string)
    (w : World) :
  match fst (pick_without_recent state pool w) with
  | Ret s => In s pool
  | Raise _ => pool = []
  | Hang => False
  end
  /\ exists url,
       fst (pick_link_short state w) = Ret url
       /\ (url = SITE_URL \/ url = OPENSEA_URL).
Proof.
  assert (H : forall pool,
             wsat (pick_without_recent state pool)
               (fun o => match o with
                         | Ret s => In s pool
                         | Raise _ => pool = []
                         | Hang => False
                         end)).
  { clear pool. intros pool. unfold pick_without_recent. apply wsat_bind.
    eapply wsat_conseq; [apply random_shuffle_Permutation|].
    intros [shuffled|e|] Hp; try contradiction.
    apply wsat_bind.
    eapply wsat_conseq; [apply first_not_recent_In|].
    intros [[s|]|e|] Hs; try contradiction.
    - apply wsat_ret. apply Permutation_sym in Hp.
      now apply (Permutation_in _ Hp).
    - apply random_choice_In. }
  split; [apply H|].
  specialize (H LINK_POOLS w).
  change (pick_link_short state w)
    with (pick_without_recent state LINK_POOLS w).
  destruct (fst (pick_without_recent state LINK_POOLS w)) as [url|e|];
    [|discriminate H|contradiction].
  exists url. split; [reflexivity|].
  destruct H as [<-|[<-|[]]]; auto.
Qed.

(** X12: when some text of the pool was not used in the seven days before
    any reading [now] of the clock (the readings satisfy [P]), the text that
    [pick_without_recent] returns was not used in the seven days before the
    reading at which it was looked up. *)
Theorem picker_prefers_unused (P : instant -> Prop) (state : State)
    (pool : list string) (w : World) :
  tape_all P (clock_utc w) ->
  (exists a, In a pool
             /\ forall now, P now -> recently_used_text_at now state a 7 = false) ->
  exists s now,
    fst (pick_without_recent state pool w) = Ret s
    /\ In s pool /\ P now /\ recently_used_text_at now state s 7 = false.
Proof.
  intros Hw [a [Ha Hfree]].
  unfold pick_without_recent, bind.
  pose proof (random_shuffle_Permutation pool w) as Hperm.
  pose proof (random_shuffle_clock pool w) as Hclock.
  destruct (random_shuffle pool w) as [[shuffled|e|] w1];
    simpl in Hperm, Hclock; try contradiction.
  rewrite <- Hclock in Hw.
  pose proof (@first_not_recent_answer P state shuffled w1 Hw) as H.
  destruct (first_not_recent state shuffled w1) as [[[s|]|e|] w2];
    simpl in H; try contradiction.
  - destruct H as [Hin [now [Hnow Hunused]]].
    exists s, now. simpl. split; [reflexivity|]. split; [|now split].
    apply Permutation_sym in Hperm. now apply (Permutation_in _ Hperm).
  - exfalso.
    destruct (H a (Permutation_in _ Hperm Ha)) as [now [Hnow Hused]].
    rewrite (Hfree now Hnow) in Hused. discriminate.
Qed.

Lemma picker_prefers_unused_witness :
  tape_all (fun now => now = 0) (clock_utc (calm_world eight_am))
  /\ exists s now,
       fst (pick_without_recent fresh_state GM_LONG (calm_world eight_am))
       = Ret s
       /\ In s GM_LONG /\ now = 0
       /\ recently_used_text_at now fresh_state s 7 = false.
Proof.
  assert (H1 : tape_all (fun now => now = 0)
                 (clock_utc (calm_world eight_am)))
    by (split; [constructor|reflexivity]).
  split; [exact H1|].
  apply (@picker_prefers_unused (fun now => now = 0) fresh_state GM_LONG
           (calm_world eight_am) H1).
  exists "GM ✨ New day, new brushstrokes.". split; [right; now left|].
  intros now _. reflexivity.
Defined.

Lemma first_fresh_image_answer (P : instant -> Prop) (state : State)
    (l : list string) (w : World) :
  tape_all P (clock_utc w) ->
  match fst (first_fresh_image state l w) with
  | Ret (Some img) =>
      In img l
      /\ exists now,
           P now
           /\ recently_used_media_at now state img IMAGE_RECENCY_DAYS = false
  | Ret None =>
      forall img,
        In img l ->
        exists now,
          P now
          /\ recently_used_media_at now state img IMAGE_RECENCY_DAYS = true
  | _ => False
  end.
Proof.
  revert w. induction l as [|img rest IH]; intros w Hw.
  - simpl. intros img [].
  - cbn [first_fresh_image].
    unfold bind at 1. unfold recently_used_media, bind, utc_now, read, ret.
    destruct (@next_tape_all _ P (clock_utc w) Hw) as [Hnow Hw'].
    destruct (next (clock_utc w)) as [now t]. simpl in Hnow, Hw'.
    destruct (recently_used_media_at now state img IMAGE_RECENCY_DAYS) eqn:E;
      cbn [negb].
    + specialize (IH (set_clock_utc t w) Hw').
      destruct (fst (first_fresh_image state rest (set_clock_utc t w)))
        as [[img'|]|e|]; try contradiction.
      * destruct IH as [Hin Hex]. split; [now right|exact Hex].
      * intros img' [<-|Hin]; [now exists now|now apply IH].
    + simpl. split; [now left|now exists now].
Qed.

(** X13: [pick_fresh_image] answers [None] exactly when the directory
    lists no image, and otherwise an image of the listing; when some image
    of the listing was not used in the 14 days before any reading of the
    clock, the image it answers was not used in the 14 days before the
    reading at which it was looked up. *)
Theorem fresh_image_preferred (P : instant -> Prop) (state : State)
    (w : World) :
  tape_all P (clock_utc w) ->
  match fst (pick_fresh_image state w) with
  | Ret None => fst (next (local_images w)) = []
  | Ret (Some img) =>
      In img (fst (next (local_images w)))
      /\ ((exists a,
              In a (fst (next (local_images w)))
              /\ forall now,
                   P now -> recently_used_media_at now state a 14 = false) ->
          exists now,
            P now /\ recently_used_media_at now state img 14 = false)
  | _ => False
  end.
Proof.
  intros Hw.
  unfold pick_fresh_image, bind at 1, list_local_images, read.
  destruct (next (local_images w)) as [imgs t]. cbn [fst].
  destruct imgs as [|i0 imgs0]; [reflexivity|].
  set (imgs := i0 :: imgs0). set (w0 := set_local_images t w).
  unfold bind.
  pose proof (random_shuffle_Permutation imgs w0) as Hperm.
  pose proof (random_shuffle_clock imgs w0) as Hclock.
  destruct (random_shuffle imgs w0) as [[shuffled|e|] w1];
    simpl in Hperm, Hclock; try contradiction.
  rewrite <- Hclock in Hw.
  pose proof (@first_fresh_image_answer P state shuffled w1 Hw) as H.
  destruct (first_fresh_image state shuffled w1) as [[[img|]|e|] w2];
    simpl in H; try contradiction.
  - destruct H as [Hin Hex]. simpl. split.
    + apply Permutation_sym in Hperm. now apply (Permutation_in _ Hperm).
    + intros _. exact Hex.
  - pose proof (random_choice_In shuffled w2) as Hc.
    destruct (random_choice shuffled w2) as [[img|e|] w3]; simpl in Hc |- *.
    + split.
      * apply Permutation_sym in Hperm. now apply (Permutation_in _ Hperm).
      * intros [a [Ha Hfree]]. exfalso.
        destruct (H a (Permutation_in _ Hperm Ha)) as [now [Hnow Hused]].
        unfold IMAGE_RECENCY_DAYS in Hused.
        rewrite (Hfree now Hnow) in Hused. discriminate.
    + subst shuffled. apply Permutation_sym, Permutation_nil in Hperm.
      discriminate Hperm.
    + exact Hc.
Qed.

Lemma fresh_image_preferred_witness :
  tape_all (fun now => now = 0) (clock_utc (calm_world eight_am))
  /\ fst (pick_fresh_image fresh_state (calm_world eight_am)) = Ret None.
Proof.
  assert (H1 : tape_all (fun now => now = 0)
                 (clock_utc (calm_world eight_am)))
    by (split; [constructor|reflexivity]).
  split; [exact H1|].
  pose proof (@fresh_image_preferred (fun now => now = 0) fresh_state
                (calm_world eight_am) H1) as H.
  destruct (fst (pick_fresh_image fresh_state (calm_world eight_am)))
    as [[img|]|e|]; try contradiction; [|reflexivity].
  destruct H as [[] _].
Defined.

(** ** The reblog picker and the engagements *)

(** X14: when the credentials check gives the same answer at each round,
    the loop of [pick_safe_reblog] returns the identifier of the first
    status of the (shuffled) timeline that is not the account's own, has an
    identifier, is not in the recent reblogs and is not itself a reblog, or
    [None] when there is none.  When the check fails ([my_id] is [None])
    the account's own statuses are not passed over. *)
Theorem first_safe_reblog_is_first_eligible (answer : exn + pyid)
    (recent : list string) (tl : list Status) (w : World) :
  tape_all (fun x => x = answer) (srv_verify w) ->
  fst (first_safe_reblog recent tl w)
  = Ret (match find (eligible_for_reblog (verified_id answer) recent) tl with
         | Some item => s_id item
         | None => IdNone
         end).
Proof.
  revert w. induction tl as [|item rest IH]; intros w Hw; [reflexivity|].
  cbn [first_safe_reblog find].
  unfold bind at 1, try_except, account_verify_credentials, remote, bind,
    emit, read, ret, raise.
  cbn [srv_verify set_trace].
  destruct (@next_tape_all _ _ (srv_verify w) Hw) as [Hx Hw'].
  destruct (next (srv_verify w)) as [x t]. simpl in Hx, Hw'. subst x.
  set (w1 := set_srv_verify t
               (set_trace (Called call_account_verify_credentials :: trace w)
                  w)).
  assert (Hw1 : tape_all (fun x => x = answer) (srv_verify w1)) by exact Hw'.
  unfold eligible_for_reblog.
  destruct answer as [e|my_id]; cbn [verified_id];
    destruct (truthy _ && pyid_eqb (s_account item) _); cbn [negb andb];
    try (apply IH; exact Hw1);
    destruct (truthy (s_id item)); cbn [negb andb];
    try (apply IH; exact Hw1);
    destruct (mem (str (s_id item)) recent); cbn [negb andb];
    try (apply IH; exact Hw1);
    destruct (s_is_reblog item); cbn [negb andb];
    try (apply IH; exact Hw1); reflexivity.
Qed.

Lemma first_safe_reblog_is_first_eligible_witness :
  let own := mkStatus (IdInt 5) (IdInt 99) false in
  let boost := mkStatus (IdInt 6) (IdInt 1) true in
  let other := mkStatus (IdInt 7) (IdInt 1) false in
  tape_all (fun x => x = inr (IdInt 99)) (srv_verify (calm_world eight_am))
  /\ fst (first_safe_reblog [] [own; boost; other] (calm_world eight_am))
     = Ret (IdInt 7).
Proof.
  assert (H : tape_all (fun x => x = inr (IdInt 99))
                (srv_verify (calm_world eight_am)))
    by (split; [constructor|reflexivity]).
  split; [exact H|].
  rewrite (@first_safe_reblog_is_first_eligible (inr (IdInt 99)) []
             [mkStatus (IdInt 5) (IdInt 99) false;
              mkStatus (IdInt 6) (IdInt 1) true;
              mkStatus (IdInt 7) (IdInt 1) false]
             (calm_world eight_am) H).
  reflexivity.
Defined.

(** X15: [engage_for_notification] answers [None] exactly for a
    notification without a status identifier, and then calls nothing;
    otherwise, when the call to the server returns, its answer is
    ["favourite"] or ["reply:"] followed by one of the canned replies, never
    an empty text (so that the engagement is counted). *)
Theorem engagement_kinds (n : Notification) (w : World) :
  match fst (engage_for_notification n w) with
  | Ret None =>
      (n_status n = None
       \/ exists sid, n_status n = Some sid /\ truthy sid = false)
      /\ snd (engage_for_notification n w) = w
  | Ret (Some kind) =>
      (exists sid, n_status n = Some sid /\ truthy sid = true)
      /\ nonempty kind = true
      /\ (kind = "favourite"
          \/ exists reply,
               kind = ("reply:" ++ reply)%string
               /\ (In reply COMMENT_SHORT \/ In reply COMMENT_EMOJIS))
  | Raise _ => exists sid, n_status n = Some sid /\ truthy sid = true
  | Hang => False
  end.
Proof.
  unfold engage_for_notification.
  destruct (n_status n) as [sid|]; [|simpl; auto].
  destruct (truthy sid) eqn:Et; cbn [negb];
    [|simpl; split; [right; now exists sid|reflexivity]].
  assert (Hsid : exists sid0, Some sid = Some sid0 /\ truthy sid0 = true)
    by now exists sid.
  unfold bind at 1, random_random, read.
  destruct (next (random_floats w)) as [r t].
  set (w1 := set_random_floats t w).
  destruct (Qltb r (75 # 100)).
  - unfold bind.
    pose proof (ends_favourite_status sid w1) as He.
    destruct (favourite_status sid w1) as [[b|e|] w2]; simpl in He |- *.
    + split; [exact Hsid|]. split; [reflexivity|now left].
    + exact Hsid.
    + now apply He.
  - unfold bind at 1, read.
    destruct (next (random_floats w1)) as [r' t'].
    set (w2 := set_random_floats t' w1).
    unfold bind at 1.
    assert (Hc : match fst ((if Qltb r' (7 # 10)
                             then random_choice COMMENT_SHORT
                             else random_choice COMMENT_EMOJIS) w2) with
                 | Ret reply =>
                     In reply COMMENT_SHORT \/ In reply COMMENT_EMOJIS
                 | _ => False
                 end).
    { destruct (Qltb r' (7 # 10)).
      - pose proof (random_choice_In COMMENT_SHORT w2) as H.
        destruct (fst (random_choice COMMENT_SHORT w2));
          [now left|discriminate H|exact H].
      - pose proof (random_choice_In COMMENT_EMOJIS w2) as H.
        destruct (fst (random_choice COMMENT_EMOJIS w2));
          [now right|discriminate H|exact H]. }
    destruct ((if Qltb r' (7 # 10)
               then random_choice COMMENT_SHORT
               else random_choice COMMENT_EMOJIS) w2) as [[reply|e|] w3];
      simpl in Hc; try contradiction.
    unfold bind.
    pose proof (ends_reply_to_status sid reply w3) as He.
    destruct (reply_to_status sid reply w3) as [[b|e|] w4]; simpl in He |- *.
    + split; [exact Hsid|]. split; [reflexivity|].
      right. now exists reply.
    + exact Hsid.
    + now apply He.
Qed.

(** ** The retry wrapper and its test for rate limits *)

Lemma with_backoff_loop_answers {A : Type} (fn : W A) (P : A -> Prop)
    (E : exn -> Prop) (fuel : nat) (tries : Z) :
  wsat fn (fun o => match o with
                    | Ret a => P a
                    | Raise e => E e
                    | Hang => False
                    end) ->
  0 <= tries <= 1024 -> 1025 <= tries + Z.of_nat fuel ->
  wsat (with_backoff_loop fuel fn tries)
    (fun o => match o with
              | Ret a => P a
              | Raise e => E e \/ e = OverflowError
              | Hang => False
              end).
Proof.
  intros Hfn. revert tries.
  induction fuel as [|fuel IH]; intros tries Ht Hf.
  - simpl in Hf. lia.
  - cbn [with_backoff_loop]. apply wsat_try_except.
    eapply wsat_conseq; [exact Hfn|].
    intros [a|e|] Ho; [exact Ho| |exact Ho].
    destruct (_needs_backoff e).
    + unfold backoff_sleep.
      destruct (1024 <=? tries + 1 - 1) eqn:Eo.
      * apply wsat_raise. now right.
      * apply Z.leb_gt in Eo. apply wsat_bind, wsat_emit.
        apply IH; lia.
    + destruct (tries + 1 <=? 2) eqn:Et.
      * apply Z.leb_le in Et. apply wsat_bind, wsat_emit.
        apply IH; lia.
      * apply wsat_raise. now left.
Qed.

(** X16: whatever the wrapped call does, the wrapper comes to an end
    (within 1025 attempts); what it returns is a value that the call
    returned, and what it raises is an error that the call raised or the
    [OverflowError] of the sleep computation. *)
Theorem with_backoff_answers {A : Type} (fn : W A) (P : A -> Prop)
    (E : exn -> Prop) :
  wsat fn (fun o => match o with
                    | Ret a => P a
                    | Raise e => E e
                    | Hang => False
                    end) ->
  wsat (with_backoff fn)
    (fun o => match o with
              | Ret a => P a
              | Raise e => E e \/ e = OverflowError
              | Hang => False
              end).
Proof.
  intros H. unfold with_backoff.
  apply with_backoff_loop_answers; [exact H|lia|simpl; lia].
Qed.

Lemma with_backoff_answers_witness :
  wsat (with_backoff (@raise nat (Exception "boom")))
    (fun o => match o with
              | Ret a => a = 0%nat
              | Raise e => e = Exception "boom" \/ e = OverflowError
              | Hang => False
              end).
Proof.
  apply (@with_backoff_answers nat (raise (Exception "boom"))
           (fun a => a = 0%nat) (fun e => e = Exception "boom")).
  intros w. reflexivity.
Defined.

Lemma lower_append (a b : string) :
  lower (a ++ b)%string = (lower a ++ lower b)%string.
Proof. induction a as [|c a IH]; simpl; [reflexivity|now rewrite IH]. Qed.

Lemma prefix_append (n b : string) : String.prefix n (n ++ b)%string = true.
Proof.
  induction n as [|c n IH]; simpl; [now destruct b|].
  destruct (ascii_dec c c) as [_|Hc]; [exact IH|now elim Hc].
Qed.

Lemma contains_append (n a b : string) :
  contains n (a ++ n ++ b)%string = true.
Proof.
  induction a as [|c a IH].
  - cbn [String.append]. destruct (n ++ b)%string eqn:E;
      cbn [contains]; rewrite <- E, prefix_append; reflexivity.
  - cbn [String.append contains]. rewrite IH. apply orb_true_r.
Qed.

(** X17: an error is taken for a rate limit as soon as its text holds
    one of the four marks (["429"], ["rate limit"], ["ratelimit"],
    ["too many requests"]) anywhere, in any mix of upper and lower case:
    the status code 429 as well as any other occurrence of these digits. *)
Theorem needs_backoff_marks (before mark after : string) :
  In (lower mark) rate_limit_marks ->
  _needs_backoff (Exception (before ++ mark ++ after)) = true.
Proof.
  intros H. unfold _needs_backoff. cbn [exn_str].
  rewrite !lower_append.
  destruct H as [H|[H|[H|[H|[]]]]]; rewrite <- H;
    rewrite contains_append; repeat rewrite orb_true_r; reflexivity.
Qed.

Lemma needs_backoff_marks_witness :
  In (lower "Rate Limit") rate_limit_marks
  /\ _needs_backoff (Exception "Mastodon API: Rate Limit exceeded") = true
  /\ _needs_backoff (Exception "Status 14290 was not found") = true.
Proof.
  assert (H : In (lower "Rate Limit") rate_limit_marks)
    by (right; now left).
  split; [exact H|]. split.
  - exact (@needs_backoff_marks "Mastodon API: " "Rate Limit" " exceeded" H).
  - apply (@needs_backoff_marks "Status 1" "429" "0 was not found").
    now left.
Defined.

(** ** The loop of [main] *)

Lemma base_nap_ranges (now_local : datetime) :
  base_nap now_local
  = if is_quiet_hours now_local then random_uniform 4200 7200
    else random_uniform 1500 3300.
Proof.
  unfold base_nap, is_quiet_hours, NO_POST_START_HOUR, NO_POST_END_HOUR.
  change (23 <=? 7) with false. cbv iota.
  split_comparisons; simpl; try reflexivity; lia.
Qed.

Lemma random_uniform_run (a b : Z) (w : World) :
  random_uniform a b w
  = (Ret (inject_Z a + (inject_Z b - inject_Z a) * fst (next (random_floats w)))%Q,
     set_random_floats (snd (next (random_floats w))) w).
Proof.
  unfold random_uniform, bind, random_random, read, ret.
  destruct (next (random_floats w)). reflexivity.
Qed.

Lemma succeeds_inter_cycle_nap : wsat inter_cycle_nap succeeds.
Proof.
  unfold inter_cycle_nap. apply wsat_bind, wsat_read. intros now.
  apply wsat_bind. rewrite base_nap_ranges.
  eapply wsat_conseq;
    [destruct (is_quiet_hours now); apply succeeds_random_uniform|].
  intros [d|e|] Hd; try contradiction.
  apply wsat_bind, wsat_read. intros r. apply wsat_bind.
  destruct (Qltb r (18 # 100)).
  - apply wsat_bind.
    eapply wsat_conseq; [apply succeeds_random_uniform|].
    intros [x|e|] Hx; try contradiction.
    apply wsat_ret. apply succeeds_sleep.
  - apply wsat_ret. apply succeeds_sleep.
Qed.

Lemma lift_succeeds_run {A : Type} (m : State -> W A) (s : State) (w : World) :
  wsat (m s) succeeds -> exists a w', lift m s w = (Ret a, s, w').
Proof.
  intros H. unfold lift. specialize (H w).
  destruct (m s w) as [[a|e|] w']; simpl in H; try contradiction.
  now exists a, w'.
Qed.

(** X18: a round of the loop of [main] never raises and never hangs: an
    error of the cycle is answered by a pause, and the loop goes on with
    the state that the cycle left, which is a reachable state again. *)
Theorem loop_round_goes_on (s : State) (w : World) :
  fst (fst (loop_round s w)) = Ret tt
  /\ snd (fst (loop_round s w)) = snd (fst (do_one_action s w))
  /\ (reachable s -> reachable (snd (fst (loop_round s w)))).
Proof.
  assert (H : fst (fst (loop_round s w)) = Ret tt
              /\ snd (fst (loop_round s w)) = snd (fst (do_one_action s w))).
  { unfold loop_round, sm_bind, sm_try, sm_ret.
    pose proof (do_one_action_effect s w) as He.
    destruct (do_one_action s w) as [[[r|e|] s'] w']; simpl in He;
      cbv beta iota zeta.
    - destruct (@lift_succeeds_run unit (fun _ => inter_cycle_nap) s' w'
                  succeeds_inter_cycle_nap) as [[] [w2 ->]].
      now split.
    - assert (Hc : wsat (cool <- random_uniform 60 120 ;; sleep cool)%world
                     succeeds).
      { apply wsat_bind.
        eapply wsat_conseq; [apply succeeds_random_uniform|].
        intros [x|e'|] Hx; try contradiction. apply succeeds_sleep. }
      destruct (@lift_succeeds_run unit
                  (fun _ => (cool <- random_uniform 60 120 ;; sleep cool)%world)
                  s' w' Hc) as [[] [w2 ->]].
      destruct (@lift_succeeds_run unit (fun _ => inter_cycle_nap) s' w2
                  succeeds_inter_cycle_nap) as [[] [w3 ->]].
      now split.
    - inversion He. }
  destruct H as [H1 H2]. split; [exact H1|]. split; [exact H2|].
  intros Hr. rewrite H2. now apply reachable_cycle.
Qed.

(** X19: the sleep between two cycles lasts between 25 and 160 minutes,
    and at least 70 minutes when the cycle ends in the quiet hours; the
    range of 45 to 80 minutes of the last branch is never used, the hours
    outside the quiet hours being all between 7 and 23. *)
Theorem inter_cycle_nap_bounds (w : World) :
  tape_all unit_interval (random_floats w) ->
  (forall now_local,
      base_nap now_local
      = if is_quiet_hours now_local then random_uniform (70 * 60) (120 * 60)
        else random_uniform (25 * 60) (55 * 60))
  /\ exists d,
       trace (snd (inter_cycle_nap w)) = Slept d :: trace w
       /\ (inject_Z (25 * 60) <= d)%Q /\ (d <= inject_Z (160 * 60))%Q
       /\ (is_quiet_hours (cycle_time w) = true -> (inject_Z (70 * 60) <= d)%Q).
Proof.
  intros Hw. split; [intros; apply base_nap_ranges|].
  unfold inter_cycle_nap, cycle_time, bind at 1, datetime_now, read.
  destruct (next (clock_local w)) as [now t]. cbn [fst].
  set (w0 := set_clock_local t w).
  assert (Hw0 : tape_all unit_interval (random_floats w0)) by exact Hw.
  assert (Ht0 : trace w0 = trace w) by reflexivity.
  clearbody w0.
  unfold bind at 1. rewrite base_nap_ranges.
  destruct (@next_tape_all _ _ (random_floats w0) Hw0) as [[Hr1 Hr1'] Hw1].
  set (r1 := fst (next (random_floats w0))) in *.
  set (w1 := set_random_floats (snd (next (random_floats w0))) w0).
  assert (Ht1 : trace w1 = trace w) by exact Ht0.
  assert (Hw1' : tape_all unit_interval (random_floats w1)) by exact Hw1.
  assert (Hb : exists base,
             (if is_quiet_hours now then random_uniform 4200 7200
              else random_uniform 1500 3300) w0 = (Ret base, w1)
             /\ (inject_Z 1500 <= base)%Q /\ (base <= inject_Z 7200)%Q
             /\ (is_quiet_hours now = true -> (inject_Z 4200 <= base)%Q)).
  { destruct (is_quiet_hours now); rewrite random_uniform_run;
      fold r1; fold w1; eexists; (split; [reflexivity|]);
      unfold inject_Z; simpl; repeat split; try lra;
      intros Hq; try discriminate Hq; lra. }
  destruct Hb as [base [-> [Hb1 [Hb2 Hb3]]]].
  clearbody w1. clear Hw0 Hw1 Ht0.
  unfold bind at 1, random_random, read.
  destruct (@next_tape_all _ _ (random_floats w1) Hw1') as [_ Hw2].
  destruct (next (random_floats w1)) as [r2 t2]. simpl in Hw2.
  set (w2 := set_random_floats t2 w1).
  assert (Ht2 : trace w2 = trace w) by exact Ht1.
  assert (Hw2' : tape_all unit_interval (random_floats w2)) by exact Hw2.
  clearbody w2.
  unfold bind at 1.
  destruct (Qltb r2 (18 # 100)).
  - unfold bind at 1. rewrite random_uniform_run.
    destruct (@next_tape_all _ _ (random_floats w2) Hw2') as [[Hr3 Hr3'] _].
    set (r3 := fst (next (random_floats w2))) in *.
    unfold ret, sleep, emit. cbn [snd trace set_trace set_random_floats].
    eexists. split; [rewrite Ht2; reflexivity|].
    unfold inject_Z in *. simpl in *. repeat split; try lra.
    intros Hq. specialize (Hb3 Hq). lra.
  - unfold ret, sleep, emit. cbn [snd trace set_trace].
    exists base. split; [rewrite Ht2; reflexivity|].
    unfold inject_Z in *. simpl in *. repeat split; try lra. exact Hb3.
Qed.

Lemma inter_cycle_nap_bounds_witness :
  tape_all unit_interval (random_floats (calm_world two_am))
  /\ exists d,
       trace (snd (inter_cycle_nap (calm_world two_am)))
       = Slept d :: trace (calm_world two_am)
       /\ (inject_Z (70 * 60) <= d)%Q.
Proof.
  assert (H : tape_all unit_interval (random_floats (calm_world two_am))).
  { split; [constructor|]. split; simpl; discriminate. }
  split; [exact H|].
  destruct (proj2 (@inter_cycle_nap_bounds (calm_world two_am) H))
    as [d [Hd [_ [_ Hq]]]].
  exists d. split; [exact Hd|]. apply Hq. reflexivity.
Defined.

(** ** The schedule of the retries *)

Lemma slept_cons (e : event) (tr : list event) :
  slept (e :: tr)
  = slept tr ++ match e with Slept d => [d] | Called _ => [] end.
Proof.
  unfold slept. cbn [rev]. rewrite flat_map_app. cbn [flat_map].
  now rewrite app_nil_r.
Qed.

Lemma favourite_attempt_run (sid : pyid) (w : World) :
  (remote (call_status_favourite sid) srv_favourite set_srv_favourite ;;
   ret true)%world w
  = (match fst (next (srv_favourite w)) with
     | inl e => Raise e
     | inr _ => Ret true
     end,
     set_srv_favourite (snd (next (srv_favourite w)))
       (set_trace (Called (call_status_favourite sid) :: trace w) w)).
Proof.
  unfold remote, bind, emit, read, ret, raise. cbn [srv_favourite set_trace].
  destruct (next (srv_favourite w)) as [[e|[]] t]; reflexivity.
Qed.

Lemma favourite_rate_limited_loop (sid : pyid) (d : exn + unit)
    (rest : list (exn + unit)) (errs : list exn) :
  fst (next (Tape rest d)) = inr tt ->
  Forall (fun e => _needs_backoff e = true) errs ->
  forall (fuel : nat) (tries : Z) (w : World),
    srv_favourite w = Tape (map inl errs ++ rest) d ->
    0 <= tries -> tries + Z.of_nat (List.length errs) <= 1024 ->
    (List.length errs < fuel)%nat ->
    let r :=
      with_backoff_loop fuel
        ((remote (call_status_favourite sid) srv_favourite set_srv_favourite ;;
          ret true)%world)
        tries w in
    fst r = Ret true
    /\ slept (trace (snd r))
       = slept (trace w) ++ backoff_schedule tries (List.length errs)
    /\ count_calls (trace (snd r))
       = (count_calls (trace w) + List.length errs + 1)%nat.
Proof.
  intros Hrest Herrs. induction Herrs as [|e errs He Herrs IH];
    intros fuel tries w Hw Ht Hn Hf;
    (destruct fuel as [|fuel]; [simpl in Hf; lia|]);
    cbv zeta; rewrite with_backoff_loop_round, favourite_attempt_run, Hw;
    cbn [map app].
  - rewrite Hrest.
    cbn [fst snd trace set_srv_favourite set_trace List.length
           backoff_schedule].
    split; [reflexivity|]. split.
    + rewrite slept_cons. now rewrite !app_nil_r.
    + unfold count_calls. cbn [filter List.length]. lia.
  - cbn [next upcoming thereafter fst snd]. rewrite He.
    cbn [List.length] in Hn, Hf.
    destruct (Z.leb_spec 1024 tries) as [Hbig|_]; [lia|].
    match goal with
    | |- context [with_backoff_loop fuel ?fn (tries + 1) ?w1] =>
        specialize (IH fuel (tries + 1) w1)
    end.
    cbv zeta in IH.
    destruct IH as [H1 [H2 H3]]; [reflexivity|lia|lia|lia|].
    split; [exact H1|]. split.
    + rewrite H2. cbn [trace set_trace set_srv_favourite].
      rewrite !slept_cons. cbn [List.length backoff_schedule].
      rewrite app_nil_r, <- app_assoc. reflexivity.
    + rewrite H3. cbn [trace set_trace set_srv_favourite].
      unfold count_calls. cbn [filter List.length]. lia.
Qed.

(** X20: when the server answers a favourite with [n] rate-limit errors,
    [n] at most 1024, and accepts it at the next attempt, [favourite_status]
    returns
    [True] after [n + 1] calls, having slept [min (5 * 2 ^ (k - 1)) 60]
    seconds after the failed attempt number [k], for [k] from 1 to [n]. *)
Theorem favourite_backoff_schedule (sid : pyid) (d : exn + unit)
    (rest : list (exn + unit)) (errs : list exn) (w : World) :
  Forall (fun e => _needs_backoff e = true) errs ->
  (List.length errs <= 1024)%nat ->
  srv_favourite w = Tape (map inl errs ++ rest) d ->
  fst (next (Tape rest d)) = inr tt ->
  fst (favourite_status sid w) = Ret true
  /\ slept (trace (snd (favourite_status sid w)))
     = slept (trace w) ++ backoff_schedule 0 (List.length errs)
  /\ count_calls (trace (snd (favourite_status sid w)))
     = (count_calls (trace w) + List.length errs + 1)%nat.
Proof.
  intros Herrs Hn Hw Hrest. unfold favourite_status, with_backoff.
  apply (@favourite_rate_limited_loop sid d rest errs Hrest Herrs 1025%nat 0
           w Hw); lia.
Qed.

Lemma favourite_backoff_schedule_witness :
  let errs := repeat (Exception "HTTP 429 Too Many Requests") 5 in
  Forall (fun e => _needs_backoff e = true) errs
  /\ (List.length errs <= 1024)%nat
  /\ srv_favourite (rate_limited_world 5) = Tape (map inl errs ++ []) (inr tt)
  /\ fst (next (Tape (@nil (exn + unit)) (inr tt))) = inr tt
  /\ slept (trace (snd (favourite_status (IdInt 70) (rate_limited_world 5))))
     = [inject_Z 5; inject_Z 10; inject_Z 20; inject_Z 40; inject_Z 60].
Proof.
  assert (H1 : Forall (fun e => _needs_backoff e = true)
                 (repeat (Exception "HTTP 429 Too Many Requests") 5))
    by (repeat constructor).
  assert (H2 : (List.length
                  (repeat (Exception "HTTP 429 Too Many Requests") 5)
                <= 1024)%nat) by (simpl; lia).
  assert (H3 : srv_favourite (rate_limited_world 5)
               = Tape (map inl
                         (repeat (Exception "HTTP 429 Too Many Requests") 5)
                       ++ []) (inr tt)) by reflexivity.
  assert (H4 : fst (next (Tape (@nil (exn + unit)) (inr tt))) = inr tt)
    by reflexivity.
  split; [exact H1|]. split; [exact H2|]. split; [exact H3|].
  split; [exact H4|].
  rewrite (proj1 (proj2 (@favourite_backoff_schedule (IdInt 70) (inr tt) []
                           (repeat (Exception "HTTP 429 Too Many Requests") 5)
                           (rate_limited_world 5) H1 H2 H3 H4))).
  reflexivity.
Defined.

(** ** The keys of the counters, and the texts of the greetings *)

Lemma after_resets_keys (s : State) (now_local : datetime) :
  d_date (daily (after_resets s now_local)) = date_isoformat now_local
  /\ h_key (hourly (after_resets s now_local)) = hour_key now_local.
Proof.
  unfold after_resets, reset_hourly_if_needed, reset_daily_if_needed.
  destruct (d_date (daily s) =? date_isoformat now_local)%string eqn:Ed;
    cbn [negb]; cbv zeta;
    match goal with
    | |- context [if negb (?a =? ?b)%string then _ else _] =>
        destruct (a =? b)%string eqn:Eh
    end; cbn [negb]; simpl in *;
    repeat match goal with
           | H : (_ =? _)%string = true |- _ => apply String.eqb_eq in H
           end; auto.
Qed.

Lemma cycle_effect_keys (now_local : datetime) (s0 : State)
    (o : outcome Result) (s' : State) :
  cycle_effect now_local s0 o s' ->
  d_date (daily s') = d_date (daily s0)
  /\ h_key (hourly s') = h_key (hourly s0).
Proof.
  intros H.
  destruct H as [nid _ Hne _|sid _ _ _|a t img at_ _ _ _ _|_| |e]; auto.
  unfold record_engagement. rewrite Hne. now split.
Qed.

(** X21: whatever a cycle does, the state it leaves carries the date key
    and the hour key of the local time at which the cycle started: the
    counters it holds are those of that day and of that hour. *)
Theorem cycle_stamps_keys (s : State) (w : World) :
  d_date (daily (snd (fst (do_one_action s w))))
  = date_isoformat (cycle_time w)
  /\ h_key (hourly (snd (fst (do_one_action s w)))) = hour_key (cycle_time w).
Proof.
  destruct (cycle_effect_keys (do_one_action_effect s w)) as [-> ->].
  apply after_resets_keys.
Qed.

Lemma pick_without_recent_In (state : State) (pool : list string) :
  wsat (pick_without_recent state pool)
    (fun o => match o with
              | Ret s => In s pool
              | Raise _ => pool = []
              | Hang => False
              end).
Proof.
  unfold pick_without_recent. apply wsat_bind.
  eapply wsat_conseq; [apply random_shuffle_Permutation|].
  intros [shuffled|e|] Hp; try contradiction.
  apply wsat_bind.
  eapply wsat_conseq; [apply first_not_recent_In|].
  intros [[s|]|e|] Hs; try contradiction.
  - apply wsat_ret. apply Permutation_sym in Hp.
    now apply (Permutation_in _ Hp).
  - apply random_choice_In.
Qed.

(** X22: [pick_gmgn_text] never fails, and the text it returns depends on
    the window and on [long]: in the morning a member of [GM_LONG] or of
    [GM_SHORT]; in the evening a member of [GN_LONG], or a member of
    [GN_SHORT_BASE] alone or followed by a space and one of the night
    emojis; at any other hour a member of [GM_SHORT]. *)
Theorem greeting_text_by_window (state : State) (now_local : datetime)
    (long : bool) (w : World) :
  exists t,
    fst (pick_gmgn_text state now_local long w) = Ret t
    /\ if in_time_window now_local morning then
         (if long then In t GM_LONG else In t GM_SHORT)
       else if in_time_window now_local evening then
         (if long then In t GN_LONG
          else exists base,
                 In base GN_SHORT_BASE
                 /\ (t = base
                     \/ exists emoji,
                          In emoji RANDOM_GN_EMOJIS
                          /\ t = (base ++ " " ++ emoji)%string))
       else In t GM_SHORT.
Proof.
  assert (Hpool : forall pool,
             pool <> [] ->
             exists t, fst (pick_without_recent state pool w) = Ret t
                       /\ In t pool).
  { intros pool Hne. pose proof (pick_without_recent_In state pool w) as H.
    destruct (fst (pick_without_recent state pool w)) as [t|e|];
      [now exists t|contradiction|contradiction]. }
  assert (Hchoice : forall (pool : list string) w0,
             pool <> [] ->
             exists t, fst (random_choice pool w0) = Ret t /\ In t pool).
  { intros pool w0 Hne. pose proof (random_choice_In pool w0) as H.
    destruct (fst (random_choice pool w0)) as [t|e|];
      [now exists t|contradiction|contradiction]. }
  unfold pick_gmgn_text.
  destruct (in_time_window now_local morning).
  - destruct long; [apply Hpool|apply Hchoice]; discriminate.
  - destruct (in_time_window now_local evening).
    + destruct long; [apply Hpool; discriminate|].
      unfold build_gn_short, bind at 1.
      destruct (Hchoice GN_SHORT_BASE w) as [base [Eb Hb]]; [discriminate|].
      destruct (random_choice GN_SHORT_BASE w) as [o w1]. simpl in Eb.
      subst o.
      unfold bind at 1, random_random, read.
      destruct (next (random_floats w1)) as [r t1].
      destruct (Qltb r (85 # 100)).
      * unfold bind.
        destruct (Hchoice RANDOM_GN_EMOJIS (set_random_floats t1 w1))
          as [emoji [Ee He]]; [discriminate|].
        destruct (random_choice RANDOM_GN_EMOJIS (set_random_floats t1 w1))
          as [o w2]. simpl in Ee. subst o.
        eexists. split; [reflexivity|].
        exists base. split; [exact Hb|]. right. now exists emoji.
      * eexists. split; [reflexivity|].
        exists base. split; [exact Hb|]. now left.
    + apply Hchoice. discriminate.
Qed.
